(** * ebay-search-backend: the search proxy endpoint and its three revisions

    A shallow embedding of the serverless handler that proxies eBay searches
    to the upstream search API, and of its helper functions.  The repository
    holds three revisions of the same endpoint:

    - [Hardened]       allow-listed CORS, per-IP rate limiter, body check,
                       value sanitisation, 10 s timeout, simplified
                       [cleanPriceField];
    - [Comprehensive]  open CORS, comprehensive [cleanPriceField];
    - [Basic]          open CORS, price clean-up written inline.

    JavaScript values are the JSON values a request body or an upstream
    reply can hold.  Strings are sequences of characters of type [ascii],
    read as code units below 256.  A finite number is the exact rational
    value of the double; [-0] is not told apart from [0], which no operation
    used here (truthiness, [toFixed], string conversion) distinguishes. *)

From Stdlib Require Import ZArith QArith Bool List Lia.
From Stdlib Require Import Strings.Ascii Strings.String Numbers.DecimalString.
Import ListNotations.

Set Warnings "-register-all".

Local Open Scope string_scope.
Local Open Scope Z_scope.

(** ** The parts of the JavaScript runtime the handler relies on *)

Module JS.

(** *** Strings *)

(** WhiteSpace and LineTerminator code units below 256: TAB, LF, VT, FF, CR,
    SP and NBSP.  Both [String.prototype.trim] and the regular expression
    class [\s] use this set. *)
Definition is_space (c : ascii) : bool :=
  let n := N_of_ascii c in
  ((9 <=? n) && (n <=? 13) || (n =? 32) || (n =? 160))%N.

Fixpoint trimStart (s : string) : string :=
  match s with
  | String c r => if is_space c then trimStart r else s
  | EmptyString => EmptyString
  end.

(** [trimEnd] keeps a character when it is not a space or when something
    is left after it. *)
Fixpoint trimEnd (s : string) : string :=
  match s with
  | String c r =>
      match trimEnd r with
      | EmptyString => if is_space c then EmptyString else String c EmptyString
      | r' => String c r'
      end
  | EmptyString => EmptyString
  end.

Definition trim (s : string) : string := trimEnd (trimStart s).

Definition nonempty (s : string) : bool :=
  match s with EmptyString => false | _ => true end.

Fixpoint filter_chars (keep : ascii -> bool) (s : string) : string :=
  match s with
  | String c r =>
      if keep c then String c (filter_chars keep r) else filter_chars keep r
  | EmptyString => EmptyString
  end.

Fixpoint all_chars (p : ascii -> bool) (s : string) : bool :=
  match s with
  | String c r => p c && all_chars p r
  | EmptyString => true
  end.

Fixpoint repeat_char (c : ascii) (n : nat) : string :=
  match n with O => EmptyString | S m => String c (repeat_char c m) end.

(** [s.split(sep)] for a one-character separator. *)
Fixpoint split_on (sep : ascii) (s : string) : list string :=
  match s with
  | EmptyString => [EmptyString]
  | String c r =>
      if Ascii.eqb c sep then EmptyString :: split_on sep r
      else match split_on sep r with
           | h :: t => String c h :: t
           | [] => [String c EmptyString]
           end
  end.

(** Decimal digits of a natural number, ["0"] for zero. *)
Definition digits (n : Z) : string :=
  NilZero.string_of_uint (N.to_uint (Z.to_N n)).

(** *** Numbers *)

Inductive number : Type :=
| NaN
| Infinity (negative : bool)
| Finite (q : Q).

Definition Qfloor' (q : Q) : Z := Qnum q / Zpos (Qden q).

Definition pow10 (e : Z) : Q :=
  if 0 <=? e then inject_Z (10 ^ e) else 1 / inject_Z (10 ^ (- e)).

Definition pow2 (e : Z) : Q :=
  if 0 <=? e then inject_Z (2 ^ e) else 1 / inject_Z (2 ^ (- e)).

(** Round to nearest, ties to even. *)
Definition round_half_even (q : Q) : Z :=
  let f := Qfloor' q in
  match ((q - inject_Z f) ?= (1 # 2))%Q with
  | Lt => f
  | Gt => f + 1
  | Eq => if Z.even f then f else f + 1
  end.

(** floor (log2 q) for a positive q. *)
Definition floor_log2 (q : Q) : Z :=
  let e0 := Z.log2 (Qnum q) - Z.log2 (Zpos (Qden q)) in
  if Qle_bool (pow2 e0) q then e0 else e0 - 1.

(** The double nearest to a positive rational, [None] on overflow. *)
Definition round_to_double (q : Q) : option Q :=
  let p := Z.max (floor_log2 q - 52) (-1074) in
  let m := round_half_even (q / pow2 p) in
  let r := (inject_Z m * pow2 p)%Q in
  if Qle_bool (pow2 1024) r then None else Some r.

Definition rounds_to (x v : Q) : bool :=
  match round_to_double v with
  | Some r => Qeq_bool r x
  | None => false
  end.

(** The [n] with 10^(n-1) <= x < 10^n, for a positive x. *)
Fixpoint exponent_below (fuel : nat) (x : Q) (n : Z) : Z :=
  match fuel with
  | O => n
  | S f => if Qle_bool (1 # 10) x then n else exponent_below f (x * 10)%Q (n - 1)
  end.

Definition decimal_exponent (x : Q) : Z :=
  if Qle_bool 1 x then Z.of_nat (String.length (digits (Qfloor' x)))
  else exponent_below 400 x 0.

(** Number::toString step 5: the shortest digit string [s] (of [k] digits)
    and exponent [n] with [s * 10^(n-k)] rounding to [x]; of two candidates
    of one length the closer one is taken. *)
Fixpoint shortest_digits (fuel : nat) (x : Q) (n0 k : Z) : Z * Z :=
  let scaled := (x * pow10 (k - n0))%Q in
  let lo := Qfloor' scaled in
  let hi := lo + 1 in
  let unit := pow10 (n0 - k) in
  let ok_lo := rounds_to x (inject_Z lo * unit)%Q in
  let ok_hi := rounds_to x (inject_Z hi * unit)%Q in
  let norm s := if s =? 10 ^ k then (10 ^ (k - 1), n0 + 1) else (s, n0) in
  let closer :=
    if Qle_bool (scaled - inject_Z lo) (inject_Z hi - scaled) then lo else hi in
  match fuel with
  | O => norm lo
  | S f =>
      if ok_lo && ok_hi then norm closer
      else if ok_lo then norm lo
      else if ok_hi then norm hi
      else shortest_digits f x n0 (k + 1)
  end.

Definition exponent_part (e : Z) : string :=
  "e" ++ (if 0 <=? e then "+" else "-") ++ digits (Z.abs e).

(** Number::toString steps 6 to 10, for a positive x. *)
Definition positive_to_string (x : Q) : string :=
  let '(s, n) := shortest_digits 17 x (decimal_exponent x) 1 in
  let ds := digits s in
  let k := Z.of_nat (String.length ds) in
  if (k <=? n) && (n <=? 21) then
    ds ++ repeat_char "0" (Z.to_nat (n - k))
  else if (0 <? n) && (n <=? 21) then
    substring 0 (Z.to_nat n) ds ++ "." ++ substring (Z.to_nat n) (Z.to_nat (k - n)) ds
  else if (-6 <? n) && (n <=? 0) then
    "0." ++ repeat_char "0" (Z.to_nat (- n)) ++ ds
  else if k =? 1 then
    ds ++ exponent_part (n - 1)
  else
    substring 0 1 ds ++ "." ++ substring 1 (Z.to_nat (k - 1)) ds
      ++ exponent_part (n - 1).

(** The double that [Finite q] stands for: [q] itself when it is the exact
    value of a double, and the nearest double otherwise, as when a numeral
    of a JSON text is read. *)
Definition to_double (x : number) : number :=
  match x with
  | Finite q =>
      match Qnum q with
      | Z0 => Finite 0
      | Zpos _ =>
          match round_to_double q with
          | Some r => Finite r
          | None => Infinity false
          end
      | Zneg _ =>
          match round_to_double (- q)%Q with
          | Some r => Finite (- r)%Q
          | None => Infinity true
          end
      end
  | _ => x
  end.

(** Number::toString (radix 10). *)
Definition NumberToString (x : number) : string :=
  match to_double x with
  | NaN => "NaN"
  | Infinity false => "Infinity"
  | Infinity true => "-Infinity"
  | Finite q =>
      match Qnum q with
      | Z0 => "0"
      | Zpos _ => positive_to_string q
      | Zneg _ => "-" ++ positive_to_string (- q)%Q
      end
  end.

(** [x.toFixed(2)]: the integer nearest to [100 x], the larger one on a
    tie, written with two decimals; Number::toString from 10^21 on and for
    the values that are not finite. *)
Definition toFixed2 (x : number) : string :=
  match to_double x with
  | Finite q =>
      let neg := Qnum q <? 0 in
      let a := if neg then (- q)%Q else q in
      let m :=
        if Qle_bool (inject_Z (10 ^ 21)) a then NumberToString (Finite a)
        else
          let n := Qfloor' (a * 100 + (1 # 2))%Q in
          let ds := digits n in
          let k := String.length ds in
          let ds := repeat_char "0" (3 - k) ++ ds in
          let k := String.length ds in
          substring 0 (k - 2) ds ++ "." ++ substring (k - 2) 2 ds in
      (if neg then "-" else "") ++ m
  | x' => NumberToString x'
  end.

(** *** Values *)

Inductive value : Type :=
| VUndefined
| VNull
| VBool (b : bool)
| VNum (x : number)
| VStr (s : string)
| VArr (items : list value)
| VObj (fields : list (string * value)).

(** An object is the list of its own properties in enumeration order, the
    order of [Object.keys] and of the spread operator: the integer-like
    keys first, in ascending order, then the other keys in the order in
    which they were added. *)
Definition object := list (string * value).

Definition typeof (v : value) : string :=
  match v with
  | VUndefined => "undefined"
  | VBool _ => "boolean"
  | VNum _ => "number"
  | VStr _ => "string"
  | VNull | VArr _ | VObj _ => "object"
  end.

(** ToBoolean. *)
Definition truthy (v : value) : bool :=
  match v with
  | VUndefined | VNull => false
  | VBool b => b
  | VNum x =>
      match to_double x with
      | NaN => false
      | Infinity _ => true
      | Finite q => negb (Qnum q =? 0)
      end
  | VStr s => nonempty s
  | VArr _ | VObj _ => true
  end.

(** The text a value converts to when its conversion to a string returns
    (see [ToString] below for when it does): an array joins the texts of
    its elements with commas, null and undefined elements giving the empty
    string, and a plain object gives ["[object Object]"]. *)
Fixpoint display (v : value) : string :=
  match v with
  | VUndefined => "undefined"
  | VNull => "null"
  | VBool true => "true"
  | VBool false => "false"
  | VNum x => NumberToString x
  | VStr s => s
  | VObj _ => "[object Object]"
  | VArr items =>
      let element x :=
        match x with VUndefined | VNull => "" | _ => display x end in
      (fix join (l : list value) : string :=
         match l with
         | [] => ""
         | [x] => element x
         | x :: r => element x ++ "," ++ join r
         end) items
  end.

(** *** Objects and property access *)

Fixpoint lookup (k : string) (o : object) : option value :=
  match o with
  | [] => None
  | (k', v) :: r => if String.eqb k k' then Some v else lookup k r
  end.

(** [delete o.k] *)
Definition remove (k : string) (o : object) : object :=
  filter (fun kv => negb (String.eqb k (fst kv))) o.

(** [o.k = v]: an existing property keeps its place, a new one goes last. *)
Fixpoint assign (k : string) (v : value) (o : object) : object :=
  match o with
  | [] => [(k, v)]
  | (k', v') :: r =>
      if String.eqb k k' then (k, v) :: r else (k', v') :: assign k v r
  end.

Fixpoint indexed (i : nat) (items : list value) : object :=
  match items with
  | [] => []
  | x :: r => (digits (Z.of_nat i), x) :: indexed (S i) r
  end.

Fixpoint chars (s : string) : list value :=
  match s with
  | EmptyString => []
  | String c r => VStr (String c EmptyString) :: chars r
  end.

(** The own enumerable properties of a value, what [{...v}] copies and
    [Object.keys(v)] lists: the fields of an object, the elements of an
    array or the characters of a string under their indices, nothing for
    the other primitives. *)
Definition own_properties (v : value) : object :=
  match v with
  | VObj fields => fields
  | VArr items => indexed 0 items
  | VStr s => indexed 0 (chars s)
  | _ => []
  end.

(** *** Exceptions *)

Record exn : Type := mkExn { name : string; message : string }.

Inductive res (A : Type) : Type :=
| Ok (a : A)
| Throw (e : exn).
Arguments Ok {A} a.
Arguments Throw {A} e.

Definition bind {A B : Type} (c : res A) (k : A -> res B) : res B :=
  match c with
  | Ok a => k a
  | Throw e => Throw e
  end.

Definition TypeError (msg : string) : exn := mkExn "TypeError" msg.

(** *** Conversion to a string *)

(** OrdinaryToPrimitive asks an object for its [toString] and then its
    [valueOf] method (in the other order for the [+] operator).  A value
    read from JSON holds no function.  So an object with an own [toString]
    property hides [Object.prototype.toString], and [valueOf], own or
    inherited, gives no primitive: the conversion throws.  Without an own
    [toString] the inherited method answers.  An array converts with
    [join], which converts each element that is not null or undefined. *)
Fixpoint convertible (v : value) : bool :=
  match v with
  | VObj fields =>
      match lookup "toString" fields with Some _ => false | None => true end
  | VArr items =>
      (fix all (l : list value) : bool :=
         match l with
         | [] => true
         | x :: r => convertible x && all r
         end) items
  | _ => true
  end.

Definition cannot_convert : exn :=
  TypeError "Cannot convert object to primitive value".

(** ToString on JSON values, as in [String(v)], a template literal, string
    concatenation and the arguments of [URLSearchParams.append]. *)
Definition ToString (v : value) : res string :=
  if convertible v then Ok (display v) else Throw cannot_convert.

(** [v !== ''] *)
Definition is_empty_string (v : value) : bool :=
  match v with
  | VStr s => String.eqb s ""
  | _ => false
  end.

(** The property read [v.k].  Reading a property of [null] or [undefined]
    throws; an object, array or string answers with its own property (or the
    [length] of an array or string) and every other read is [undefined].
    Inherited properties are left out: none of the names the handler reads
    is a member of a built-in prototype. *)
Definition GetV (v : value) (k : string) : res value :=
  match v with
  | VUndefined | VNull =>
      Throw (TypeError ("Cannot read properties of " ++ display v
                          ++ " (reading '" ++ k ++ "')"))
  | VArr items =>
      Ok (match lookup k (own_properties v) with
          | Some x => x
          | None =>
              if String.eqb k "length"
              then VNum (Finite (inject_Z (Z.of_nat (List.length items))))
              else VUndefined
          end)
  | VStr s =>
      Ok (match lookup k (own_properties v) with
          | Some x => x
          | None =>
              if String.eqb k "length"
              then VNum (Finite (inject_Z (Z.of_nat (String.length s))))
              else VUndefined
          end)
  | _ =>
      Ok (match lookup k (own_properties v) with
          | Some x => x
          | None => VUndefined
          end)
  end.

(** The method call [v.trim()]: only a string has the method. *)
Definition call_trim (v : value) (expr : string) : res value :=
  match v with
  | VStr s => Ok (VStr (trim s))
  | VUndefined | VNull =>
      Throw (TypeError ("Cannot read properties of " ++ display v
                          ++ " (reading 'trim')"))
  | _ => Throw (TypeError (expr ++ ".trim is not a function"))
  end.

(** The method call [v.toFixed(2)]: only a number has the method. *)
Definition call_toFixed (v : value) (expr : string) : res value :=
  match v with
  | VNum x => Ok (VStr (toFixed2 x))
  | VUndefined | VNull =>
      Throw (TypeError ("Cannot read properties of " ++ display v
                          ++ " (reading 'toFixed')"))
  | _ => Throw (TypeError (expr ++ ".toFixed is not a function"))
  end.

End JS.

Import JS.

Declare Scope res_scope.
Delimit Scope res_scope with res.
Notation "x <- c ;; k" := (bind c (fun x => k))
  (at level 61, c at next level, right associativity) : res_scope.
Notation "'ret' a" := (Ok a) (at level 10, only parsing) : res_scope.
Local Open Scope res_scope.

(** ** Requests, replies and the world outside the handler *)

Record request : Type := mkRequest {
  method : string;
  (** request headers, names in lower case *)
  headers : list (string * string);
  (** [req.connection?.remoteAddress] *)
  remoteAddress : option string;
  (** the parsed body, [VUndefined] when there is none *)
  body : value
}.

Record environment : Type := mkEnv {
  SERPAPI_KEY : option string;
  ALLOWED_ORIGINS : option string
}.

(** What was sent with [res.status(..).json(..)] or [res.status(..).end()],
    and the headers set before. *)
Record response : Type := mkResponse {
  status : Z;
  sent_headers : list (string * string);
  payload : option value
}.

(** The query of the upstream GET: the [URLSearchParams] pairs in order. *)
Definition query := list (string * string).

(** How the upstream call ends: [fetch] rejects (network failure, or the
    abort signal fired), or a reply arrives whose body parses as JSON or
    makes [response.json()] throw. *)
Inductive fetched : Type :=
| Rejected (e : exn)
| Responded (ok : bool) (code : Z) (statusText : string) (json : res value).

Record world : Type := mkWorld {
  (** [Date.now()], in milliseconds *)
  now : Z;
  fetch : query -> fetched
}.

Definition header (k : string) (hs : list (string * string)) : option string :=
  match find (fun kv => String.eqb k (fst kv)) hs with
  | Some kv => Some (snd kv)
  | None => None
  end.

Definition error_body (msg : string) : value := VObj [("error", VStr msg)].

(** The first steps of the [try] region end either in a reply sent without
    calling upstream, or in the query to send. *)
Inductive decision : Type :=
| Reply (code : Z) (json : value)
| Forward (q : query).

(** The replies to a missing API key and to a missing search term. *)
Definition missing_key : decision :=
  Reply 500 (error_body "SERPAPI_KEY environment variable not set").

Definition missing_query : decision :=
  Reply 400 (error_body "Search query (_nkw) or category_id is required").

Definition fixed_parameters (API_KEY : string) : query :=
  [("engine", "ebay"); ("api_key", API_KEY); ("ebay_domain", "ebay.com")].

(** [value !== null && value !== undefined && value !== ''] *)
Definition forwardable (v : value) : bool :=
  match v with
  | VNull | VUndefined | VStr EmptyString => false
  | _ => true
  end.

Fixpoint mapM {A B : Type} (f : A -> res B) (l : list A) : res (list B) :=
  match l with
  | [] => ret []
  | x :: r => y <- f x ;; ys <- mapM f r ;; ret (y :: ys)
  end.

Record outcome : Type := mkOutcome {
  reply : response;
  (** the upstream calls made while handling the request *)
  calls : list query
}.

(** [data.k = v] on the parsed reply.  The assignment is reached after a
    truthy [data.organic_results] only, which makes [data] an object. *)
Definition put (data : value) (k : string) (v : value) : value :=
  match data with
  | VObj fields => VObj (assign k v fields)
  | _ => data
  end.

Definition property (o : object) (k : string) : value :=
  match lookup k o with Some v => v | None => VUndefined end.

Definition is_string (v : value) : bool := String.eqb (typeof v) "string".
Definition is_object (v : value) : bool := String.eqb (typeof v) "object".
Definition is_number (v : value) : bool := String.eqb (typeof v) "number".

Definition isArray (v : value) : bool :=
  match v with VArr _ => true | _ => false end.

Definition Price_not_available : value := VStr "Price not available".

(** The method call [v.map(f)] on a value that passed the truthiness test. *)
Definition call_map (f : value -> res value) (v : value) : res value :=
  match v with
  | VArr items => cleaned <- mapM f items ;; ret (VArr cleaned)
  | _ => Throw (TypeError "data.organic_results.map is not a function")
  end.

(** ** The hardened revision: rate limiter, allow-listed CORS, sanitised
       query, timeout *)

Module Hardened.

Definition RATE_LIMIT_WINDOW_MS : Z := 60 * 1000.
Definition RATE_LIMIT_MAX_REQUESTS : Z := 30.

(** Simplified price cleaning function. *)
Definition cleanPriceField (priceData : value) : res value :=
  usable <- (if is_string priceData
             then t <- call_trim priceData "priceData" ;; ret (truthy t)
             else ret false) ;;
  if usable then call_trim priceData "priceData"
  else if truthy priceData && is_object priceData then
    raw <- GetV priceData "raw" ;;
    if truthy raw && is_string raw then ret raw
    else
      extracted_value <- GetV priceData "extracted_value" ;;
      if is_number extracted_value then
        t <- call_toFixed extracted_value "priceData.extracted_value" ;;
        text <- ToString t ;;
        ret (VStr ("$" ++ text))
      else ret Price_not_available
  else ret Price_not_available.

(** The limiter's record for one client. *)
Record clientData : Type := mkClient { requests : Z; resetTime : Z }.

(** The [Map] from client IP to its record, in insertion order. *)
Definition rateLimitMap := list (string * clientData).

Fixpoint map_get (k : string) (m : rateLimitMap) : option clientData :=
  match m with
  | [] => None
  | (k', d) :: r => if String.eqb k k' then Some d else map_get k r
  end.

Fixpoint map_set (k : string) (d : clientData) (m : rateLimitMap) : rateLimitMap :=
  match m with
  | [] => [(k, d)]
  | (k', d') :: r =>
      if String.eqb k k' then (k, d) :: r else (k', d') :: map_set k d r
  end.

(** Rate limiting function.  The record read from the map is the object the
    map holds, so the reset of an expired window is written to the map at
    once; a record made for a new client reaches the map only with
    [rateLimitMap.set]. *)
Definition checkRateLimit (now : Z) (clientIP : string) (m : rateLimitMap)
  : bool * rateLimitMap :=
  let stored := map_get clientIP m in
  let data :=
    match stored with
    | Some d => d
    | None => mkClient 0 (now + RATE_LIMIT_WINDOW_MS)
    end in
  let expired := now >? resetTime data in
  let data :=
    if expired then mkClient 0 (now + RATE_LIMIT_WINDOW_MS) else data in
  let m :=
    if expired then
      match stored with Some _ => map_set clientIP data m | None => m end
    else m in
  if requests data >=? RATE_LIMIT_MAX_REQUESTS then (false, m)
  else
    let data := mkClient (requests data + 1) (resetTime data) in
    let m := map_set clientIP data m in
    let m :=
      if Z.of_nat (List.length m) >? 1000 then
        let cutoff := now - RATE_LIMIT_WINDOW_MS in
        filter (fun entry => negb (resetTime (snd entry) <? cutoff)) m
      else m in
    (true, m).

(** [a || b] on a header that may be missing. *)
Definition or_else (a : option string) (b : string) : string :=
  match a with
  | Some s => if nonempty s then s else b
  | None => b
  end.

Definition getClientIP (req : request) : string :=
  let forwarded_for :=
    match header "x-forwarded-for" (headers req) with
    | Some h => Some (hd EmptyString (split_on "," h))
    | None => None
    end in
  or_else forwarded_for
    (or_else (header "x-real-ip" (headers req))
       (or_else (remoteAddress req) "127.0.0.1")).

Definition getAllowedOrigins (env : environment) : list string :=
  match ALLOWED_ORIGINS env with
  | Some envOrigins =>
      if nonempty envOrigins then List.map trim (split_on "," envOrigins)
      else
        ["https://www.puckgenius.com"; "https://puckgenius.com";
         "http://localhost:3000"; "http://127.0.0.1:3000"]
  | None =>
      ["https://www.puckgenius.com"; "https://puckgenius.com";
       "http://localhost:3000"; "http://127.0.0.1:3000"]
  end.

(** The headers [handleCORS] sets on the reply. *)
Definition handleCORS (env : environment) (req : request) : list (string * string) :=
  let allowed :=
    match header "origin" (headers req) with
    | Some origin =>
        if existsb (String.eqb origin) (getAllowedOrigins env)
        then [("Access-Control-Allow-Origin", origin)] else []
    | None => []
    end in
  (allowed ++
   [("Access-Control-Allow-Methods", "POST, OPTIONS");
    ("Access-Control-Allow-Headers", "Content-Type");
    ("Access-Control-Max-Age", "86400")])%list.

(** The characters [/[^\w\s.,()-]/g] leaves in place. *)
Definition allowed_char (c : ascii) : bool :=
  let n := N_of_ascii c in
  ((65 <=? n) && (n <=? 90) || (97 <=? n) && (n <=? 122)
   || (48 <=? n) && (n <=? 57) || (n =? 95))%N
  || is_space c
  || existsb (Ascii.eqb c) ["."; ","; "("; ")"; "-"]%char.

(** [Object.keys(searchParams).forEach(...)]: the pairs appended after the
    fixed parameters. *)
Definition forwarded (searchParams : value) : res query :=
  appended <-
    mapM
      (fun key =>
         let value := property (own_properties searchParams) key in
         if forwardable value then
           text <- ToString value ;;
           let sanitizedValue := filter_chars allowed_char text in
           if nonempty sanitizedValue then ret [(key, sanitizedValue)]
           else ret []
         else ret [])
      (List.map fst (own_properties searchParams)) ;;
  ret (List.concat appended).

(** The [try] region up to the upstream call. *)
Definition prepare (env : environment) (req : request) : res decision :=
  match SERPAPI_KEY env with
  | Some API_KEY =>
      if negb (nonempty API_KEY) then ret missing_key
      else
        let searchParams := body req in
        if negb (truthy searchParams) || negb (is_object searchParams) then
          ret (Reply 400 (error_body "Invalid request body"))
        else
          nkw <- GetV searchParams "_nkw" ;;
          missing <- (if truthy nkw then ret false
                      else category_id <- GetV searchParams "category_id" ;;
                           ret (negb (truthy category_id))) ;;
          if missing then ret missing_query
          else
            q <- forwarded searchParams ;;
            ret (Forward (fixed_parameters API_KEY ++ q)%list)
  | None => ret missing_key
  end.

(** The callback of [organic_results.map]. *)
Definition cleanProduct (product : value) : res value :=
  let copy := own_properties product in
  let copy := remove "shipping" copy in
  price <- cleanPriceField (property copy "price") ;;
  ret (VObj (assign "price" price copy)).

(** The [try] region from the upstream reply on. *)
Definition conclude (f : fetched) : res (Z * value) :=
  match f with
  | Rejected e => Throw e
  | Responded ok code statusText json =>
      if negb ok then
        Throw (mkExn "Error"
                 ("SERPAPI request failed: " ++ digits code ++ " " ++ statusText))
      else
        data <- json ;;
        error <- GetV data "error" ;;
        if truthy error then
          text <- ToString error ;;
          ret (400, error_body ("Search failed: " ++ text))
        else
          organic_results <- GetV data "organic_results" ;;
          if truthy organic_results && isArray organic_results then
            cleaned <- call_map cleanProduct organic_results ;;
            ret (200, put data "organic_results" cleaned)
          else ret (200, data)
  end.

Definition handler (env : environment) (w : world) (m : rateLimitMap)
           (req : request) : outcome * rateLimitMap :=
  let hs := handleCORS env req in
  if String.eqb (method req) "OPTIONS" then
    (mkOutcome (mkResponse 200 hs None) [], m)
  else if negb (String.eqb (method req) "POST") then
    (mkOutcome (mkResponse 405 hs (Some (error_body "Method not allowed"))) [], m)
  else
    let clientIP := getClientIP req in
    let '(allowed, m) := checkRateLimit (now w) clientIP m in
    if negb allowed then
      (mkOutcome
         (mkResponse 429 hs
            (Some (VObj [("error", VStr "Rate limit exceeded. Please wait before making more requests.");
                         ("retryAfter", VNum (Finite 60))]))) [], m)
    else
      let '(sent, result) :=
        match prepare env req with
        | Throw e => ([], Throw e)
        | Ok (Reply code json) => ([], Ok (code, json))
        | Ok (Forward q) => ([q], conclude (fetch w q))
        end in
      match result with
      | Ok (code, json) => (mkOutcome (mkResponse code hs (Some json)) sent, m)
      | Throw error =>
          if String.eqb (name error) "AbortError" then
            (mkOutcome
               (mkResponse 408 hs
                  (Some (error_body "Search request timed out. Please try again.")))
               sent, m)
          else
            (mkOutcome
               (mkResponse 500 hs
                  (Some (error_body ("Failed to search eBay products: "
                                       ++ message error))))
               sent, m)
      end.

End Hardened.

(** ** What the two open revisions share

    The comprehensive and the basic revision have the same handler text but
    for the clean-up of a product, which is a parameter here. *)

Module Open.

Definition cors_headers : list (string * string) :=
  [("Access-Control-Allow-Origin", "*");
   ("Access-Control-Allow-Methods", "GET, POST, OPTIONS");
   ("Access-Control-Allow-Headers", "Content-Type")].

(** [Object.keys(searchParams).forEach(...)]: values are appended as they
    are, [URLSearchParams.append] turning each into a string. *)
Definition forwarded (searchParams : value) : res query :=
  appended <-
    mapM
      (fun key =>
         let value := property (own_properties searchParams) key in
         if forwardable value then
           text <- ToString value ;;
           ret [(key, text)]
         else ret [])
      (List.map fst (own_properties searchParams)) ;;
  ret (List.concat appended).

(** The [try] region up to the upstream call: no check of the body comes
    before the first property read. *)
Definition prepare (env : environment) (req : request) : res decision :=
  match SERPAPI_KEY env with
  | Some API_KEY =>
      if negb (nonempty API_KEY) then ret missing_key
      else
        let searchParams := body req in
        nkw <- GetV searchParams "_nkw" ;;
        missing <- (if truthy nkw then ret false
                    else category_id <- GetV searchParams "category_id" ;;
                         ret (negb (truthy category_id))) ;;
        if missing then ret missing_query
        else
          q <- forwarded searchParams ;;
          ret (Forward (fixed_parameters API_KEY ++ q)%list)
  | None => ret missing_key
  end.

Section Handler.

Variable cleanProduct : value -> res value.

(** The [try] region from the upstream reply on. *)
Definition conclude (f : fetched) : res (Z * value) :=
  match f with
  | Rejected e => Throw e
  | Responded ok code statusText json =>
      if negb ok then
        Throw (mkExn "Error"
                 ("SERPAPI request failed: " ++ digits code ++ " " ++ statusText))
      else
        data <- json ;;
        error <- GetV data "error" ;;
        if truthy error then
          text <- ToString error ;;
          ret (400, error_body ("SERPAPI Error: " ++ text))
        else
          organic_results <- GetV data "organic_results" ;;
          if truthy organic_results then
            cleaned <- call_map cleanProduct organic_results ;;
            ret (200, put data "organic_results" cleaned)
          else ret (200, data)
  end.

Definition handler (env : environment) (w : world) (req : request) : outcome :=
  let hs := cors_headers in
  if String.eqb (method req) "OPTIONS" then
    mkOutcome (mkResponse 200 hs None) []
  else if negb (String.eqb (method req) "POST") then
    mkOutcome (mkResponse 405 hs (Some (error_body "Method not allowed"))) []
  else
    let '(sent, result) :=
      match prepare env req with
      | Throw e => ([], Throw e)
      | Ok (Reply code json) => ([], Ok (code, json))
      | Ok (Forward q) => ([q], conclude (fetch w q))
      end in
    match result with
    | Ok (code, json) => mkOutcome (mkResponse code hs (Some json)) sent
    | Throw error =>
        mkOutcome
          (mkResponse 500 hs
             (Some (error_body ("Failed to search eBay products: "
                                  ++ message error))))
          sent
    end.

End Handler.

End Open.

(** ** The comprehensive revision *)

Module Comprehensive.

(** One entry of the [attempts] array: [priceData.k ? `$${priceData.k.toFixed(2)}` : null] *)
Definition priced (priceData : value) (k : string) : res value :=
  probe <- GetV priceData k ;;
  if truthy probe then
    amount <- GetV priceData k ;;
    t <- call_toFixed amount ("priceData." ++ k) ;;
    text <- ToString t ;;
    ret (VStr ("$" ++ text))
  else ret VNull.

(** The loop over [attempts]: the first one that is a string with something
    other than white space in it. *)
Fixpoint first_valid (attempts : list value) : res value :=
  match attempts with
  | [] => ret Price_not_available
  | attempt :: rest =>
      valid <- (if truthy attempt && is_string attempt
                then t <- call_trim attempt "attempt" ;;
                     ret (negb (is_empty_string t))
                else ret false) ;;
      if valid then ret attempt else first_valid rest
  end.

(** Comprehensive price cleaning function.  The diagnostic [console.warn]
    before the fallback is not part of the result. *)
Definition cleanPriceField (priceData : value) : res value :=
  if is_string priceData then ret priceData
  else if negb (truthy priceData) || negb (is_object priceData) then
    ret Price_not_available
  else
    a1 <- GetV priceData "raw" ;;
    a2 <- GetV priceData "formatted" ;;
    a3 <- priced priceData "extracted_value" ;;
    a4 <- priced priceData "extracted" ;;
    a5 <- priced priceData "value" ;;
    a6 <- priced priceData "amount" ;;
    a7 <- priced priceData "price" ;;
    first_valid [a1; a2; a3; a4; a5; a6; a7].

(** The callback of [organic_results.map]. *)
Definition cleanProduct (product : value) : res value :=
  let copy := own_properties product in
  let copy := remove "shipping" copy in
  price <- cleanPriceField (property copy "price") ;;
  ret (VObj (assign "price" price copy)).

Definition handler : environment -> world -> request -> outcome :=
  Open.handler cleanProduct.

End Comprehensive.

(** ** The basic revision *)

Module Basic.

(** The callback of [organic_results.map], with the price tidied inline. *)
Definition cleanProduct (product : value) : res value :=
  let copy := own_properties product in
  let copy := remove "shipping" copy in
  let price := property copy "price" in
  if truthy price && is_object price then
    raw <- GetV price "raw" ;;
    if truthy raw then ret (VObj (assign "price" raw copy))
    else
      probe <- GetV price "extracted" ;;
      if truthy probe then
        extracted <- GetV price "extracted" ;;
        t <- call_toFixed extracted "cleanProduct.price.extracted" ;;
        text <- ToString t ;;
        ret (VObj (assign "price" (VStr text) copy))
      else ret (VObj copy)
  else ret (VObj copy).

Definition handler : environment -> world -> request -> outcome :=
  Open.handler cleanProduct.

End Basic.

(** * The vocabulary of the properties *)

(** ** Prices *)

(** The fields the comprehensive version formats with [toFixed]. *)
Definition amount_keys : list string :=
  ["extracted_value"; "extracted"; "value"; "amount"; "price"].

(** Every such field is a number or is falsy. *)
Definition amounts_numeric (priceData : value) : bool :=
  forallb
    (fun k =>
       let v := property (own_properties priceData) k in
       is_number v || negb (truthy v))
    amount_keys.

(** ** Products *)

(** What the basic revision makes of the price: a price that is a non-null
    object is replaced by its [raw] when that is truthy, or else by its
    [extracted] written with two decimals when that is truthy (a number,
    then); every other price is left as it is, present or not. *)
Definition basic_price (product : value) (o : object) : Prop :=
  let price := property (own_properties product) "price" in
  if truthy price && is_object price then
    exists raw extracted,
      GetV price "raw" = Ok raw /\ GetV price "extracted" = Ok extracted
      /\ if truthy raw then lookup "price" o = Some raw
         else if truthy extracted then
           exists x, extracted = VNum x
                     /\ lookup "price" o = Some (VStr (toFixed2 x))
         else lookup "price" o = lookup "price" (own_properties product)
  else lookup "price" o = lookup "price" (own_properties product).

(** What the clean-up of a product keeps: no [shipping] in the output, and
    every property other than [shipping] and [price] as it was. *)
Definition preserved (product : value) (o : object) : Prop :=
  lookup "shipping" o = None
  /\ forall k, k <> "shipping" -> k <> "price" ->
               lookup k o = lookup k (own_properties product).

(** ** Property names *)

Definition is_digit (c : ascii) : bool :=
  let n := N_of_ascii c in ((48 <=? n) && (n <=? 57))%N.

(** The name could be the index of an array element or of a character. *)
Definition starts_with_digit (k : string) : bool :=
  match k with
  | String c _ => is_digit c
  | EmptyString => false
  end.

(** ** Requests *)

(** The API key is set in the environment. *)
Definition configured (env : environment) : bool :=
  match SERPAPI_KEY env with
  | Some API_KEY => nonempty API_KEY
  | None => false
  end.

(** A search term that is missing ([undefined]), [null] or the empty
    string. *)
Definition missing_or_empty (v : value) : bool :=
  match v with
  | VUndefined | VNull | VStr EmptyString => true
  | _ => false
  end.

(** Every value of the body that is forwarded converts to a string. *)
Definition all_convertible (fields : object) : bool :=
  forallb (fun kv => negb (forwardable (snd kv)) || convertible (snd kv)) fields.

(** A POST with the API key set whose body is an object with a truthy
    [_nkw] or [category_id] and values that convert to strings: the
    requests that reach the upstream. *)
Definition valid_search (env : environment) (req : request) : bool :=
  String.eqb (method req) "POST"
  && configured env
  && match body req with
     | VObj fields =>
         (truthy (property fields "_nkw") || truthy (property fields "category_id"))
         && all_convertible fields
     | _ => false
     end.

(** The upstream ends every call in the same way. *)
Definition upstream (w : world) (f : fetched) : Prop :=
  forall q, fetch w q = f.

(** The text of the exception for an upstream status that is not 2xx. *)
Definition request_failed (code : Z) (statusText : string) : string :=
  "SERPAPI request failed: " ++ digits code ++ " " ++ statusText.

(** The reply of the catch-all. *)
Definition failure (msg : string) : option value :=
  Some (error_body ("Failed to search eBay products: " ++ msg)).

(** A search and an upstream that answers it with the given data. *)
Definition sample_search : request :=
  mkRequest "POST" [] None (VObj [("_nkw", VStr "a")]).

Definition answering (data : value) : world :=
  mkWorld 0 (fun _ => Responded true 200 "OK" (Ok data)).

(** A world and an environment to run the handlers in. *)
Definition sample_world : world :=
  mkWorld 1000 (fun _ => Responded true 200 "OK" (Ok (VObj []))).

Definition sample_env : environment := mkEnv (Some "KEY") None.

(** ** The limiter *)

(** The calls of one client at the given times, one after the other. *)
Fixpoint run (ip : string) (times : list Z) (m : Hardened.rateLimitMap)
    : list bool * Hardened.rateLimitMap :=
  match times with
  | [] => ([], m)
  | t :: later =>
      let '(allowed, m') := Hardened.checkRateLimit t ip m in
      let '(rest, m'') := run ip later m' in
      (allowed :: rest, m'')
  end.

(** The client has no record yet, or its window is over at [t]. *)
Definition starts_window (t : Z) (ip : string) (m : Hardened.rateLimitMap) : bool :=
  match Hardened.map_get ip m with
  | None => true
  | Some d => Hardened.resetTime d <? t
  end.

(** The states of the map that calls of [checkRateLimit] lead to from the
    empty map. *)
Inductive reachable : Hardened.rateLimitMap -> Prop :=
| reachable_empty : reachable []
| reachable_call (m : Hardened.rateLimitMap) (now : Z) (ip : string) :
    reachable m -> reachable (snd (Hardened.checkRateLimit now ip m)).

Definition within_limit (m : Hardened.rateLimitMap) : Prop :=
  Forall (fun entry =>
            Hardened.requests (snd entry) <= Hardened.RATE_LIMIT_MAX_REQUESTS) m.

(** ** The upstream query *)

(** The pairs forwarded as they are: every property of the body whose
    value is not [null], [undefined] or the empty string, in order, with
    the value turned into a string. *)
Definition verbatim_pairs (fields : object) : query :=
  List.map (fun kv => (fst kv, display (snd kv)))
           (filter (fun kv => forwardable (snd kv)) fields).

(** [String(value).replace(/[^\w\s.,()-]/g, '')] *)
Definition strip (s : string) : string :=
  filter_chars Hardened.allowed_char s.

(** The pairs forwarded by the sanitising revision: the same properties
    with their values stripped, less those of which nothing is left. *)
Definition sanitized_pairs (fields : object) : query :=
  filter (fun kv => nonempty (snd kv))
         (List.map (fun kv => (fst kv, strip (display (snd kv))))
                   (filter (fun kv => forwardable (snd kv)) fields)).

(** * Properties *)

Arguments toFixed2 : simpl never.
Arguments NumberToString : simpl never.
Arguments to_double : simpl never.
Arguments trim : simpl never.
Arguments truthy !v / : simpl nomatch.

(** ** Tactics *)

Ltac split_value v := destruct v as [| |?b|?x|?s|?items|?fields].

Ltac split_lookup :=
  match goal with
  | |- context [lookup ?k ?o] =>
      let found := fresh "found" in
      destruct (lookup k o) as [found|]; [split_value found|]; simpl
  end.

Ltac split_nonempty :=
  match goal with
  | |- context [nonempty ?s] => destruct (nonempty s); simpl
  end.

Ltac split_bool :=
  match goal with
  | |- context [if ?b then _ else _] => is_var b; destruct b; simpl
  | |- context [andb ?b _] => is_var b; destruct b; simpl
  | |- context [negb ?b] => is_var b; destruct b; simpl
  end.

Ltac returns_string := eexists; reflexivity.

Ltac split_truthy :=
  match goal with
  | |- context [truthy ?v] => destruct (truthy v); simpl
  end.

Ltac by_cases :=
  repeat (cbv delta [is_string is_object is_number]; simpl;
          first [returns_string | split_nonempty | split_lookup
                | split_bool | split_truthy]).

(** ** The runtime on examples *)

Example toFixed2_examples :
  List.map toFixed2
    [Finite 12.5; Finite 20; Finite 25.99; Finite 0.125; Finite 1.005;
     Finite (-0.001); Finite 1e21; NaN]
  = ["12.50"; "20.00"; "25.99"; "0.13"; "1.00"; "-0.00"; "1e+21"; "NaN"].
Proof. vm_compute. reflexivity. Qed.

Example NumberToString_examples :
  List.map NumberToString
    [Finite 2; Finite 12.5; Finite 0.1; Finite (-1.5); Finite 1e21;
     Finite 0.000001; Finite 1e-7; Finite 123456789012345680000;
     Finite 1e999]
  = ["2"; "12.5"; "0.1"; "-1.5"; "1e+21"; "0.000001"; "1e-7";
     "123456789012345680000"; "Infinity"].
Proof. vm_compute. reflexivity. Qed.

Example ToString_examples :
  List.map ToString
    [VUndefined; VBool true; VStr "a b"; VObj [("a", VNull)];
     VArr [VNum (Finite 1); VNull; VArr [VStr "x"; VStr "y"]];
     VObj [("toString", VNum (Finite 1))];
     VArr [VStr "a"; VObj [("toString", VNull)]];
     VObj [("valueOf", VNum (Finite 1))]]
  = [Ok "undefined"; Ok "true"; Ok "a b"; Ok "[object Object]"; Ok "1,,x,y";
     Throw cannot_convert; Throw cannot_convert; Ok "[object Object]"].
Proof. vm_compute. reflexivity. Qed.

Example trim_examples :
  List.map trim ["  $9.99 "; "a b"; "   "; ""] = ["$9.99"; "a b"; ""; ""].
Proof. reflexivity. Qed.

(** The end-to-end example: a POST of [{_nkw: "jersey"}] against an
    upstream that returns one product. *)
Example end_to_end :
  let upstream :=
    VObj [("organic_results",
           VArr [VObj [("title", VStr "A");
                       ("price", VObj [("extracted_value", VNum (Finite 20))]);
                       ("shipping", VObj [("cost", VNum (Finite 5))])]])] in
  let w := mkWorld 1000 (fun _ => Responded true 200 "OK" (Ok upstream)) in
  let req :=
    mkRequest "POST" [("origin", "https://puckgenius.com")] None
              (VObj [("_nkw", VStr "jersey")]) in
  let cleaned :=
    Some (VObj [("organic_results",
                 VArr [VObj [("title", VStr "A"); ("price", VStr "$20.00")]])]) in
  let out := fst (Hardened.handler sample_env w [] req) in
  status (reply out) = 200
  /\ payload (reply out) = cleaned
  /\ header "Access-Control-Allow-Origin" (sent_headers (reply out))
     = Some "https://puckgenius.com"
  /\ status (reply (Comprehensive.handler sample_env w req)) = 200
  /\ payload (reply (Comprehensive.handler sample_env w req)) = cleaned.
Proof. vm_compute. repeat split. Qed.

(** ** Objects *)

Section ObjectLemmas.

Variables (k : string) (v : value).

Lemma lookup_assign_same (o : object) : lookup k (assign k v o) = Some v.
Proof.
  induction o as [|[k' v'] r IH]; simpl.
  - now rewrite String.eqb_refl.
  - destruct (String.eqb k k') eqn:E; simpl.
    + now rewrite String.eqb_refl.
    + now rewrite E.
Qed.

Lemma lookup_assign_other (k' : string) (o : object) :
  k' <> k -> lookup k' (assign k v o) = lookup k' o.
Proof.
  intros Hne. induction o as [|[k0 v0] r IH]; simpl.
  - apply String.eqb_neq in Hne. now rewrite Hne.
  - destruct (String.eqb k k0) eqn:E; simpl.
    + apply String.eqb_eq in E. subst k0.
      apply String.eqb_neq in Hne. now rewrite Hne.
    + now rewrite IH.
Qed.

Lemma lookup_remove_same (o : object) : lookup k (remove k o) = None.
Proof.
  induction o as [|[k' v'] r IH]; simpl; auto.
  destruct (String.eqb k k') eqn:E; simpl; auto.
  now rewrite E.
Qed.

Lemma lookup_remove_other (k' : string) (o : object) :
  k' <> k -> lookup k' (remove k o) = lookup k' o.
Proof.
  intros Hne. induction o as [|[k0 v0] r IH]; simpl; auto.
  destruct (String.eqb k k0) eqn:E; simpl.
  - apply String.eqb_eq in E. subst k0.
    apply String.eqb_neq in Hne. now rewrite Hne.
  - now rewrite IH.
Qed.

Lemma remove_remove (o : object) : remove k (remove k o) = remove k o.
Proof.
  unfold remove. induction o as [|[k' v'] r IH]; simpl; auto.
  destruct (String.eqb k k') eqn:E; simpl; auto.
  now rewrite E, IH.
Qed.

Lemma remove_assign_other (k' : string) (o : object) :
  k' <> k -> remove k' (assign k v o) = assign k v (remove k' o).
Proof.
  intros Hne. apply String.eqb_neq in Hne.
  induction o as [|[k0 v0] r IH]; simpl.
  - now rewrite Hne.
  - destruct (String.eqb k k0) eqn:E.
    + apply String.eqb_eq in E. subst k0. simpl.
      rewrite Hne. simpl. now rewrite String.eqb_refl.
    + simpl. destruct (String.eqb k' k0) eqn:E'; simpl; auto.
      now rewrite E, IH.
Qed.

Lemma assign_assign (o : object) : assign k v (assign k v o) = assign k v o.
Proof.
  induction o as [|[k' v'] r IH]; simpl.
  - now rewrite String.eqb_refl.
  - destruct (String.eqb k k') eqn:E; simpl.
    + now rewrite String.eqb_refl.
    + now rewrite E, IH.
Qed.

End ObjectLemmas.

Lemma property_assign_same (k : string) (v : value) (o : object) :
  property (assign k v o) k = v.
Proof. unfold property. now rewrite lookup_assign_same. Qed.

(** The index of an element starts with a digit, so a property with a name
    such as [_nkw] or [organic_results] is never an element of an array or
    a character of a string. *)
Lemma digits_start (n : Z) : starts_with_digit (digits n) = true.
Proof.
  unfold digits. destruct (N.to_uint (Z.to_N n)); reflexivity.
Qed.

Lemma lookup_indexed_named (k : string) (items : list value) :
  starts_with_digit k = false -> forall i, lookup k (indexed i items) = None.
Proof.
  intros Hk. induction items as [|x r IH]; simpl; intros i; auto.
  destruct (String.eqb k (digits (Z.of_nat i))) eqn:E; auto.
  apply String.eqb_eq in E. subst k. rewrite digits_start in Hk. discriminate.
Qed.

(** Only an object has a truthy property under such a name. *)
Lemma named_property_of_object (v r : value) (k : string) :
  starts_with_digit k = false -> String.eqb k "length" = false ->
  GetV v k = Ok r -> truthy r = true -> exists fields, v = VObj fields.
Proof.
  intros Hk Hl Hget Ht.
  split_value v; simpl in Hget; try discriminate;
    try (injection Hget as <-; discriminate); eauto.
  - rewrite lookup_indexed_named, Hl in Hget by assumption.
    injection Hget as <-. discriminate.
  - rewrite lookup_indexed_named, Hl in Hget by assumption.
    injection Hget as <-. discriminate.
Qed.

(** ** cleanPriceField *)

(** The hardened [cleanPriceField] returns a string on every value: each
    method call in it is guarded by the [typeof] test it needs. *)
Lemma Hardened_cleanPriceField_total (priceData : value) :
  exists s, Hardened.cleanPriceField priceData = Ok (VStr s).
Proof.
  split_value priceData; unfold Hardened.cleanPriceField; by_cases.
Qed.

(** A value that is neither a string nor a non-null object gets the
    fallback text from both versions of [cleanPriceField]. *)
Lemma cleanPriceField_fallback (priceData : value) :
  is_string priceData = false ->
  truthy priceData && is_object priceData = false ->
  Hardened.cleanPriceField priceData = Ok Price_not_available
  /\ Comprehensive.cleanPriceField priceData = Ok Price_not_available.
Proof.
  intros Hs Ho.
  unfold Hardened.cleanPriceField, Comprehensive.cleanPriceField.
  rewrite Hs, Ho. simpl.
  destruct (truthy priceData); simpl in *; [rewrite Ho|]; auto.
Qed.

Example cleanPriceField_fallback_examples :
  List.map Hardened.cleanPriceField [VObj []; VNull; VNum (Finite 42)]
  = [Ok Price_not_available; Ok Price_not_available; Ok Price_not_available]
  /\ List.map Comprehensive.cleanPriceField [VObj []; VNull; VNum (Finite 42)]
  = [Ok Price_not_available; Ok Price_not_available; Ok Price_not_available].
Proof. split; reflexivity. Qed.

(** The loop over the attempts never throws and returns a string. *)
Lemma first_valid_string (attempts : list value) :
  exists s, Comprehensive.first_valid attempts = Ok (VStr s).
Proof.
  induction attempts as [|attempt rest IH]; simpl.
  - returns_string.
  - split_value attempt; cbv delta [is_string]; simpl;
      try rewrite andb_false_r; simpl; auto.
    destruct (nonempty s); simpl; auto.
    destruct (String.eqb (trim s) ""); simpl; auto.
    returns_string.
Qed.

Arguments Comprehensive.first_valid : simpl never.

Lemma priced_numeric (priceData : value) (k : string) :
  (forall r, GetV priceData k = r ->
             r = Ok (property (own_properties priceData) k)) ->
  (let v := property (own_properties priceData) k in
   is_number v || negb (truthy v) = true) ->
  exists a, Comprehensive.priced priceData k = Ok a.
Proof.
  intros Hget Hnum. unfold Comprehensive.priced.
  rewrite (Hget _ eq_refl). simpl in *.
  destruct (truthy (property (own_properties priceData) k)) eqn:T.
  - rewrite orb_false_r in Hnum.
    destruct (property (own_properties priceData) k); try discriminate.
    simpl. eexists; reflexivity.
  - eexists; reflexivity.
Qed.

(** The comprehensive [cleanPriceField] returns a string whenever the
    fields it formats are numbers or falsy. *)
Lemma Comprehensive_cleanPriceField_total (priceData : value) :
  amounts_numeric priceData = true ->
  exists s, Comprehensive.cleanPriceField priceData = Ok (VStr s).
Proof.
  intros Hnum.
  assert (Hk : forall k, In k amount_keys ->
               let v := property (own_properties priceData) k in
               is_number v || negb (truthy v) = true).
  { intros k Hin. unfold amounts_numeric in Hnum.
    rewrite forallb_forall in Hnum. now apply Hnum. }
  split_value priceData;
    unfold Comprehensive.cleanPriceField; cbv delta [is_string is_object]; simpl.
  1-5: by_cases.
  - (* array *)
    repeat match goal with
    | |- context [Comprehensive.priced ?p ?k] =>
        let a := fresh "a" in let E := fresh "E" in
        destruct (priced_numeric p k) as [a E];
          [ intros r <-; reflexivity
          | apply Hk; simpl; tauto
          | rewrite E; simpl ]
    end.
    apply first_valid_string.
  - (* object *)
    repeat match goal with
    | |- context [Comprehensive.priced ?p ?k] =>
        let a := fresh "a" in let E := fresh "E" in
        destruct (priced_numeric p k) as [a E];
          [ intros r <-; reflexivity
          | apply Hk; simpl; tauto
          | rewrite E; simpl ]
    end.
    apply first_valid_string.
Qed.

(** C1 (code defect).  [cleanPriceField] is meant never to throw and to
    answer ["Price not available"] for whatever it cannot read.  The
    comprehensive version calls [toFixed] on every truthy candidate field
    without the [typeof] test of the hardened version: a price object whose
    [extracted_value] is a text makes it throw a TypeError. *)
Theorem C1_comprehensive_cleanPriceField_throws :
  Comprehensive.cleanPriceField (VObj [("extracted_value", VStr "12.50")])
  = Throw (TypeError "priceData.extracted_value.toFixed is not a function").
Proof. reflexivity. Qed.

(** One such product in the upstream reply costs the whole search: the
    exception reaches the catch-all and the reply is 500. *)
Example Comprehensive_handler_text_amount :
  let upstream :=
    VObj [("organic_results",
           VArr [VObj [("title", VStr "A");
                       ("price", VObj [("extracted_value", VStr "12.50")])]])] in
  let w := mkWorld 1000 (fun _ => Responded true 200 "OK" (Ok upstream)) in
  let req := mkRequest "POST" [] None (VObj [("_nkw", VStr "jersey")]) in
  status (reply (Comprehensive.handler sample_env w req)) = 500
  /\ status (reply (fst (Hardened.handler sample_env w [] req))) = 200.
Proof. vm_compute. split; reflexivity. Qed.

(** C2 fails on the trimmed version for a string of white space only: the
    guard [priceData.trim()] is falsy and the fallback text is returned,
    not the trimmed (empty) string. *)
Lemma C2_counterexample_blank_string :
  Hardened.cleanPriceField (VStr "   ") = Ok Price_not_available
  /\ Hardened.cleanPriceField (VStr "   ") <> Ok (VStr (trim "   ")).
Proof. split; [reflexivity | discriminate]. Qed.

(** C2 (amended).  The comprehensive [cleanPriceField] returns every string
    unchanged; the hardened one returns it trimmed when something is left
    after trimming, and the fallback text otherwise.  Both return ["$9.99"]
    for [{raw: "$9.99"}] and ["$12.50"] for [{extracted_value: 12.5}]. *)
Theorem C2_cleanPriceField_display_strings (s : string) :
  Comprehensive.cleanPriceField (VStr s) = Ok (VStr s)
  /\ Hardened.cleanPriceField (VStr s)
     = Ok (if nonempty (trim s) then VStr (trim s) else Price_not_available)
  /\ Comprehensive.cleanPriceField (VObj [("raw", VStr "$9.99")])
     = Ok (VStr "$9.99")
  /\ Hardened.cleanPriceField (VObj [("raw", VStr "$9.99")])
     = Ok (VStr "$9.99")
  /\ Comprehensive.cleanPriceField (VObj [("extracted_value", VNum (Finite 12.5))])
     = Ok (VStr "$12.50")
  /\ Hardened.cleanPriceField (VObj [("extracted_value", VNum (Finite 12.5))])
     = Ok (VStr "$12.50").
Proof.
  repeat split; try reflexivity.
  unfold Hardened.cleanPriceField. cbv delta [is_string is_object]. simpl.
  destruct (nonempty (trim s)); simpl; [reflexivity|].
  now rewrite andb_false_r.
Qed.

(** ** The response sanitizer *)

Lemma preserved_copy (product : value) :
  preserved product (remove "shipping" (own_properties product)).
Proof.
  split.
  - apply lookup_remove_same.
  - intros k Hs _. now apply lookup_remove_other.
Qed.

Lemma preserved_assign (product : value) (price : value) :
  preserved product
    (assign "price" price (remove "shipping" (own_properties product))).
Proof.
  split.
  - rewrite lookup_assign_other by discriminate. apply lookup_remove_same.
  - intros k Hs Hp. rewrite lookup_assign_other by assumption.
    now apply lookup_remove_other.
Qed.

Ltac bind_inversion H :=
  repeat match type of H with
  | bind ?c _ = Ok _ =>
      let E := fresh "E" in
      destruct c eqn:E; simpl in H; [|discriminate H]
  | (if ?b then _ else _) = Ok _ =>
      let E := fresh "E" in destruct b eqn:E
  | Ok _ = Ok _ => injection H as H
  end.

(** The comprehensive [cleanPriceField] returns nothing but strings. *)
Lemma Comprehensive_cleanPriceField_string (priceData out : value) :
  Comprehensive.cleanPriceField priceData = Ok out ->
  exists s, out = VStr s.
Proof.
  unfold Comprehensive.cleanPriceField. intros H.
  destruct (is_string priceData) eqn:S.
  - injection H as <-. split_value priceData; try discriminate. eauto.
  - destruct (negb (truthy priceData) || negb (is_object priceData)).
    + injection H as <-. unfold Price_not_available. eauto.
    + bind_inversion H.
      match type of H with
      | Comprehensive.first_valid ?l = _ =>
          destruct (first_valid_string l) as [s Hs]
      end.
      rewrite Hs in H. injection H as <-. eauto.
Qed.

(** C5 fails on [price]: the clean-up replaces a price object by its
    display string, so that property is not kept unchanged. *)
Lemma C5_counterexample_price_rewritten :
  let product :=
    VObj [("title", VStr "A");
          ("price", VObj [("extracted_value", VNum (Finite 20))]);
          ("shipping", VObj [("cost", VNum (Finite 5))])] in
  Hardened.cleanProduct product
  = Ok (VObj [("title", VStr "A"); ("price", VStr "$20.00")])
  /\ Comprehensive.cleanProduct product
     = Ok (VObj [("title", VStr "A"); ("price", VStr "$20.00")])
  /\ lookup "price" [("title", VStr "A"); ("price", VStr "$20.00")]
     <> lookup "price" (own_properties product).
Proof. repeat split; try reflexivity. discriminate. Qed.

Lemma price_of_copy (product : value) :
  property (remove "shipping" (own_properties product)) "price"
  = property (own_properties product) "price".
Proof. unfold property. now rewrite lookup_remove_other by discriminate. Qed.

(** The basic revision returns the copy without [shipping], its price set
    by the rule of [basic_price]. *)
Lemma Basic_cleanProduct_price (product out : value) :
  Basic.cleanProduct product = Ok out ->
  exists o, out = VObj o /\ preserved product o /\ basic_price product o.
Proof.
  unfold Basic.cleanProduct, basic_price. rewrite price_of_copy.
  set (price := property (own_properties product) "price").
  set (copy := remove "shipping" (own_properties product)).
  assert (Hsame : lookup "price" copy = lookup "price" (own_properties product)).
  { unfold copy. now rewrite lookup_remove_other by discriminate. }
  destruct (truthy price && is_object price).
  - intros H.
    destruct (GetV price "raw") as [raw|e] eqn:Hraw; simpl in H; [|discriminate].
    destruct (truthy raw) eqn:Traw.
    + injection H as <-. eexists. split; [reflexivity|].
      split; [apply preserved_assign|].
      destruct (GetV price "extracted") as [extracted|e] eqn:Hex.
      * exists raw, extracted. rewrite Traw. repeat split.
        apply lookup_assign_same.
      * (* the read of [raw] returned, so the read of [extracted] does *)
        destruct price; simpl in Hraw, Hex; discriminate.
    + destruct (GetV price "extracted") as [extracted|e] eqn:Hex; simpl in H;
        [|discriminate].
      destruct (truthy extracted) eqn:Tex.
      * destruct extracted as [| |b|x|s|l|f]; simpl in H; try discriminate.
        injection H as <-. eexists. split; [reflexivity|].
        split; [apply preserved_assign|].
        exists raw, (VNum x). rewrite Traw, Tex. repeat split.
        exists x. split; [reflexivity | apply lookup_assign_same].
      * injection H as <-. eexists. split; [reflexivity|].
        split; [apply preserved_copy|].
        exists raw, extracted. rewrite Traw, Tex. repeat split. exact Hsame.
  - intros [= <-]. eexists. split; [reflexivity|].
    split; [apply preserved_copy | exact Hsame].
Qed.

(** C5 (amended).  The clean-up of a product returns a record without
    [shipping] in which every property of the product other than [shipping]
    and [price] is present with its value unchanged.  Its [price] is what
    [cleanPriceField] returns for the price of the product in the hardened
    and the comprehensive revision; in the basic revision a price that is a
    non-null object is replaced by its truthy [raw], or else by its truthy
    [extracted] written with two decimals, and any other price is left as
    it is.  The hardened revision returns such a record for every product;
    the other two whenever their price clean-up does not throw. *)
Theorem C5_sanitizer_frame (product : value) :
  (exists o price,
     Hardened.cleanProduct product = Ok (VObj o)
     /\ preserved product o
     /\ Hardened.cleanPriceField (property (own_properties product) "price")
        = Ok price
     /\ lookup "price" o = Some price)
  /\ (forall out, Comprehensive.cleanProduct product = Ok out ->
        exists o price,
          out = VObj o /\ preserved product o
          /\ Comprehensive.cleanPriceField
               (property (own_properties product) "price") = Ok price
          /\ lookup "price" o = Some price)
  /\ (forall out, Basic.cleanProduct product = Ok out ->
        exists o, out = VObj o /\ preserved product o /\ basic_price product o).
Proof.
  split; [|split].
  - unfold Hardened.cleanProduct. rewrite price_of_copy.
    destruct (Hardened_cleanPriceField_total
                (property (own_properties product) "price")) as [s Hs].
    rewrite Hs. simpl. do 2 eexists. split; [reflexivity|].
    split; [apply preserved_assign|]. split; [reflexivity|].
    apply lookup_assign_same.
  - unfold Comprehensive.cleanProduct. rewrite price_of_copy. intros out H.
    bind_inversion H. subst out.
    do 2 eexists. split; [reflexivity|].
    split; [apply preserved_assign|]. split; [reflexivity|].
    apply lookup_assign_same.
  - apply Basic_cleanProduct_price.
Qed.

Lemma C5_sanitizer_frame_witness :
  exists o price,
    VObj [("title", VStr "A"); ("price", VStr "$20.00")] = VObj o
    /\ preserved
         (VObj [("title", VStr "A");
                ("price", VObj [("extracted_value", VNum (Finite 20))]);
                ("shipping", VObj [("cost", VNum (Finite 5))])]) o
    /\ Comprehensive.cleanPriceField
         (property
            (own_properties
               (VObj [("title", VStr "A");
                      ("price", VObj [("extracted_value", VNum (Finite 20))]);
                      ("shipping", VObj [("cost", VNum (Finite 5))])]))
            "price") = Ok price
    /\ lookup "price" o = Some price.
Proof.
  apply (proj1 (proj2 (C5_sanitizer_frame
           (VObj [("title", VStr "A");
                  ("price", VObj [("extracted_value", VNum (Finite 20))]);
                  ("shipping", VObj [("cost", VNum (Finite 5))])])))).
  reflexivity.
Defined.

(** A second pass over a cleaned product changes nothing. *)
Lemma Comprehensive_cleanProduct_again (product out : value) :
  Comprehensive.cleanProduct product = Ok out ->
  Comprehensive.cleanProduct out = Ok out.
Proof.
  unfold Comprehensive.cleanProduct at 1. intros H.
  bind_inversion H. subst out.
  destruct (Comprehensive_cleanPriceField_string _ _ E) as [s ->].
  unfold Comprehensive.cleanProduct. simpl own_properties.
  rewrite remove_assign_other by discriminate.
  rewrite remove_remove, property_assign_same.
  simpl. now rewrite assign_assign.
Qed.

Lemma mapM_again {A : Type} (f : A -> res A) :
  (forall x y, f x = Ok y -> f y = Ok y) ->
  forall l l', mapM f l = Ok l' -> mapM f l' = Ok l'.
Proof.
  intros Hf. induction l as [|x r IH]; simpl; intros l' H.
  - now injection H as <-.
  - bind_inversion H. subst l'. simpl.
    rewrite (Hf _ _ E), (IH _ eq_refl). reflexivity.
Qed.

(** C10.  Cleaning the products of [organic_results] a second time gives
    what the first pass gave: the first pass leaves each [price] a string
    and no [shipping], and [cleanPriceField] returns a string unchanged.
    When the first pass throws, there is no list to clean again and both
    sides are that exception. *)
Theorem C10_comprehensive_sanitizer_idempotent (organic_results : list value) :
  (cleaned <- mapM Comprehensive.cleanProduct organic_results ;;
   mapM Comprehensive.cleanProduct cleaned)
  = mapM Comprehensive.cleanProduct organic_results.
Proof.
  destruct (mapM Comprehensive.cleanProduct organic_results) as [cleaned|e] eqn:E;
    simpl; [|reflexivity].
  eapply mapM_again; [|exact E].
  exact Comprehensive_cleanProduct_again.
Qed.

(** ** The checks of the handler *)

Lemma missing_or_empty_falsy (v : value) :
  missing_or_empty v = true -> truthy v = false.
Proof. split_value v; try discriminate; auto. now destruct s. Qed.

Section MissingQuery.

Variables (env : environment) (req : request) (nkw category_id : value).
Hypothesis Hnkw : GetV (body req) "_nkw" = Ok nkw.
Hypothesis Hcat : GetV (body req) "category_id" = Ok category_id.
Hypothesis Fnkw : truthy nkw = false.
Hypothesis Fcat : truthy category_id = false.

(** Without a search term the [try] region replies at once; the reply is
    the 400 of the validator once the API key is set. *)
Lemma Hardened_prepare_missing_query :
  exists code json,
    Hardened.prepare env req = Ok (Reply code json)
    /\ (configured env = true -> code = 400).
Proof.
  unfold Hardened.prepare, configured.
  destruct (SERPAPI_KEY env) as [key|].
  - destruct (nonempty key); simpl.
    + destruct (negb (truthy (body req)) || negb (is_object (body req))).
      * do 2 eexists. split; [reflexivity | auto].
      * rewrite Hnkw. simpl. rewrite Fnkw, Hcat. simpl. rewrite Fcat. simpl.
        do 2 eexists. split; [reflexivity | auto].
    + do 2 eexists. split; [reflexivity | discriminate].
  - do 2 eexists. split; [reflexivity | discriminate].
Qed.

Lemma Open_prepare_missing_query :
  exists code json,
    Open.prepare env req = Ok (Reply code json)
    /\ (configured env = true -> code = 400).
Proof.
  unfold Open.prepare, configured.
  destruct (SERPAPI_KEY env) as [key|].
  - destruct (nonempty key); simpl.
    + rewrite Hnkw. simpl. rewrite Fnkw, Hcat. simpl. rewrite Fcat. simpl.
      do 2 eexists. split; [reflexivity | auto].
    + do 2 eexists. split; [reflexivity | discriminate].
  - do 2 eexists. split; [reflexivity | discriminate].
Qed.

Lemma Hardened_handler_missing_query (w : world) (m : Hardened.rateLimitMap) :
  calls (fst (Hardened.handler env w m req)) = []
  /\ (method req = "POST" -> configured env = true ->
      fst (Hardened.checkRateLimit (now w) (Hardened.getClientIP req) m) = true ->
      status (reply (fst (Hardened.handler env w m req))) = 400).
Proof.
  destruct Hardened_prepare_missing_query as (code & json & E & Hcode).
  unfold Hardened.handler. rewrite E.
  destruct (String.eqb (method req) "OPTIONS") eqn:Eo.
  - split; [reflexivity|]. intros Hm. rewrite Hm in Eo. discriminate.
  - destruct (String.eqb (method req) "POST") eqn:Ep; simpl.
    + destruct (Hardened.checkRateLimit _ _ m) as [allowed m']. simpl.
      destruct allowed; simpl; split; auto. discriminate.
    + split; [reflexivity|]. intros Hm. rewrite Hm in Ep. discriminate.
Qed.

Lemma Open_handler_missing_query (cleanProduct : value -> res value) (w : world) :
  calls (Open.handler cleanProduct env w req) = []
  /\ (method req = "POST" -> configured env = true ->
      status (reply (Open.handler cleanProduct env w req)) = 400).
Proof.
  destruct Open_prepare_missing_query as (code & json & E & Hcode).
  unfold Open.handler. rewrite E.
  destruct (String.eqb (method req) "OPTIONS") eqn:Eo.
  - split; [reflexivity|]. intros Hm. rewrite Hm in Eo. discriminate.
  - destruct (String.eqb (method req) "POST") eqn:Ep; simpl.
    + split; auto.
    + split; [reflexivity|]. intros Hm. rewrite Hm in Ep. discriminate.
Qed.

End MissingQuery.

(** C3.  A request whose body has neither [_nkw] nor [category_id] (each
    missing, [null] or empty) never reaches upstream, in any revision and
    whatever the method, the environment and the limiter say; and once the
    earlier checks are passed (POST, API key set, limiter not exceeded) the
    reply is the 400 of the validator. *)
Theorem C3_missing_query_rejected
  (env : environment) (w : world) (m : Hardened.rateLimitMap) (req : request)
  (nkw category_id : value) :
  GetV (body req) "_nkw" = Ok nkw ->
  GetV (body req) "category_id" = Ok category_id ->
  missing_or_empty nkw = true ->
  missing_or_empty category_id = true ->
  (calls (fst (Hardened.handler env w m req)) = []
   /\ calls (Comprehensive.handler env w req) = []
   /\ calls (Basic.handler env w req) = [])
  /\ (method req = "POST" -> configured env = true ->
      (fst (Hardened.checkRateLimit (now w) (Hardened.getClientIP req) m) = true ->
       status (reply (fst (Hardened.handler env w m req))) = 400)
      /\ status (reply (Comprehensive.handler env w req)) = 400
      /\ status (reply (Basic.handler env w req)) = 400).
Proof.
  intros Hn Hc Mn Mc.
  apply missing_or_empty_falsy in Mn, Mc.
  pose proof (Hardened_handler_missing_query env req _ _ Hn Hc Mn Mc w m) as [H1 H2].
  pose proof (Open_handler_missing_query env req _ _ Hn Hc Mn Mc
                Comprehensive.cleanProduct w) as [C1 C2].
  pose proof (Open_handler_missing_query env req _ _ Hn Hc Mn Mc
                Basic.cleanProduct w) as [B1 B2].
  split; [repeat split; assumption|].
  intros Hm Hk. repeat split; auto.
Qed.

Lemma C3_missing_query_rejected_witness :
  let req := mkRequest "POST" [] None (VObj [("_nkw", VStr "")]) in
  status (reply (fst (Hardened.handler sample_env sample_world [] req))) = 400
  /\ status (reply (Comprehensive.handler sample_env sample_world req)) = 400
  /\ status (reply (Basic.handler sample_env sample_world req)) = 400.
Proof.
  intros req.
  destruct (C3_missing_query_rejected sample_env sample_world [] req
              (VStr "") VUndefined eq_refl eq_refl eq_refl eq_refl)
    as [_ H].
  destruct (H eq_refl eq_refl) as (H1 & H2 & H3).
  split; [exact (H1 eq_refl) | split; assumption].
Defined.

(** For the hardened revision a body that is [null], [undefined] or not an
    object is turned away by the validator with 400. *)
Lemma Hardened_invalid_body_400
  (env : environment) (w : world) (m : Hardened.rateLimitMap) (req : request) :
  method req = "POST" -> configured env = true ->
  fst (Hardened.checkRateLimit (now w) (Hardened.getClientIP req) m) = true ->
  truthy (body req) && is_object (body req) = false ->
  let out := fst (Hardened.handler env w m req) in
  status (reply out) = 400
  /\ payload (reply out) = Some (error_body "Invalid request body")
  /\ calls out = [].
Proof.
  intros Hm Hk Ha Hb. unfold Hardened.handler, Hardened.prepare.
  rewrite Hm. simpl.
  destruct (Hardened.checkRateLimit _ _ m) as [allowed m']. simpl in Ha. subst.
  simpl. unfold configured in Hk.
  destruct (SERPAPI_KEY env) as [key|]; [|discriminate]. rewrite Hk. simpl.
  destruct (truthy (body req)); simpl in *; [rewrite Hb|]; simpl; auto.
Qed.

(** C4 (code defect).  A POST whose body is [null] is to be answered with
    400.  The hardened revision does so, but the comprehensive and the basic
    revision read [searchParams._nkw] with no check of the body: the read
    throws, and the reply is the 500 of the catch-all. *)
Theorem C4_open_handlers_null_body_500 (w : world) :
  let req := mkRequest "POST" [] None VNull in
  let failure :=
    Some (error_body
            "Failed to search eBay products: Cannot read properties of null (reading '_nkw')") in
  (status (reply (Comprehensive.handler sample_env w req)) = 500
   /\ payload (reply (Comprehensive.handler sample_env w req)) = failure)
  /\ (status (reply (Basic.handler sample_env w req)) = 500
      /\ payload (reply (Basic.handler sample_env w req)) = failure).
Proof. repeat split. Qed.

(** C8.  A request whose method is neither POST nor OPTIONS is answered
    with 405 and [{error: "Method not allowed"}]; nothing is sent upstream
    and the limiter is left as it was. *)
Theorem C8_method_not_allowed
  (env : environment) (w : world) (m : Hardened.rateLimitMap) (req : request) :
  method req <> "POST" -> method req <> "OPTIONS" ->
  let refusal := Some (error_body "Method not allowed") in
  (status (reply (fst (Hardened.handler env w m req))) = 405
   /\ payload (reply (fst (Hardened.handler env w m req))) = refusal
   /\ calls (fst (Hardened.handler env w m req)) = []
   /\ snd (Hardened.handler env w m req) = m)
  /\ (status (reply (Comprehensive.handler env w req)) = 405
      /\ payload (reply (Comprehensive.handler env w req)) = refusal
      /\ calls (Comprehensive.handler env w req) = [])
  /\ (status (reply (Basic.handler env w req)) = 405
      /\ payload (reply (Basic.handler env w req)) = refusal
      /\ calls (Basic.handler env w req) = []).
Proof.
  intros Hp Ho. apply String.eqb_neq in Hp, Ho.
  unfold Hardened.handler, Comprehensive.handler, Basic.handler, Open.handler.
  rewrite Hp, Ho. simpl. repeat split.
Qed.

Lemma C8_method_not_allowed_witness :
  let req := mkRequest "GET" [] None VUndefined in
  status (reply (fst (Hardened.handler sample_env sample_world [] req))) = 405
  /\ status (reply (Comprehensive.handler sample_env sample_world req)) = 405
  /\ status (reply (Basic.handler sample_env sample_world req)) = 405.
Proof.
  intros req.
  assert (Hp : method req <> "POST") by discriminate.
  assert (Ho : method req <> "OPTIONS") by discriminate.
  destruct (C8_method_not_allowed sample_env sample_world [] req Hp Ho)
    as ((H & _) & (C & _) & (B & _)).
  repeat split; assumption.
Defined.

(** ** The rate limiter *)

Module Limiter.

Import Hardened.

Lemma window_positive : 0 < RATE_LIMIT_WINDOW_MS.
Proof. reflexivity. Qed.

Lemma gtb_false (a b : Z) : a <= b -> (a >? b) = false.
Proof. intros H. rewrite Z.gtb_ltb. now apply Z.ltb_ge. Qed.

Lemma gtb_true (a b : Z) : b < a -> (a >? b) = true.
Proof. intros H. rewrite Z.gtb_ltb. now apply Z.ltb_lt. Qed.

Lemma geb_false (a b : Z) : a < b -> (a >=? b) = false.
Proof. intros H. rewrite Z.geb_leb. now apply Z.leb_gt. Qed.

Lemma geb_true (a b : Z) : b <= a -> (a >=? b) = true.
Proof. intros H. rewrite Z.geb_leb. now apply Z.leb_le. Qed.

Lemma map_get_set_same (k : string) (d : clientData) (m : rateLimitMap) :
  map_get k (map_set k d m) = Some d.
Proof.
  induction m as [|[k' d'] r IH]; simpl.
  - now rewrite String.eqb_refl.
  - destruct (String.eqb k k') eqn:E; simpl.
    + now rewrite String.eqb_refl.
    + now rewrite E.
Qed.

Lemma map_get_In (k : string) (d : clientData) (m : rateLimitMap) :
  map_get k m = Some d -> In (k, d) m.
Proof.
  induction m as [|[k' d'] r IH]; simpl; [discriminate|].
  destruct (String.eqb k k') eqn:E.
  - apply String.eqb_eq in E. subst k'. intros [= ->]. now left.
  - intros H. right. now apply IH.
Qed.

(** The sweep keeps the first record of a client when it keeps the record. *)
Lemma map_get_filter (p : string * clientData -> bool) (k : string)
      (d : clientData) (m : rateLimitMap) :
  map_get k m = Some d -> p (k, d) = true -> map_get k (filter p m) = Some d.
Proof.
  intros Hget Hp. induction m as [|[k' d'] r IH]; simpl in *; [discriminate|].
  destruct (String.eqb k k') eqn:E.
  - apply String.eqb_eq in E. subst k'. injection Hget as ->.
    rewrite Hp. simpl. now rewrite String.eqb_refl.
  - destruct (p (k', d')); simpl; [rewrite E|]; auto.
Qed.

(** The map after the record of [ip] is stored and the sweep has run. *)
Lemma stored_survives (now : Z) (ip : string) (d : clientData) (m : rateLimitMap) :
  now - RATE_LIMIT_WINDOW_MS <= resetTime d ->
  map_get ip
    (let m' := map_set ip d m in
     if Z.of_nat (List.length m') >? 1000 then
       filter (fun entry =>
                 negb (resetTime (snd entry) <? now - RATE_LIMIT_WINDOW_MS)) m'
     else m')
  = Some d.
Proof.
  intros Hd. cbv zeta.
  destruct (Z.of_nat (List.length (map_set ip d m)) >? 1000).
  - apply map_get_filter; [apply map_get_set_same|].
    simpl. apply negb_true_iff, Z.ltb_ge. exact Hd.
  - apply map_get_set_same.
Qed.

Section OneCall.

Variables (now : Z) (ip : string) (m : rateLimitMap).

(** The first call of a client opens a window at [now]. *)
Lemma check_first :
  map_get ip m = None ->
  fst (checkRateLimit now ip m) = true
  /\ map_get ip (snd (checkRateLimit now ip m))
     = Some (mkClient 1 (now + RATE_LIMIT_WINDOW_MS)).
Proof.
  intros Hget. unfold checkRateLimit. rewrite Hget. simpl resetTime.
  rewrite gtb_false by (pose proof window_positive; lia).
  simpl. split; [reflexivity|].
  apply stored_survives. simpl. pose proof window_positive. lia.
Qed.

(** A call after the window has elapsed opens a new one. *)
Lemma check_expired (d : clientData) :
  map_get ip m = Some d -> resetTime d < now ->
  fst (checkRateLimit now ip m) = true
  /\ map_get ip (snd (checkRateLimit now ip m))
     = Some (mkClient 1 (now + RATE_LIMIT_WINDOW_MS)).
Proof.
  intros Hget Hlate. unfold checkRateLimit. rewrite Hget.
  rewrite gtb_true by exact Hlate.
  simpl. split; [reflexivity|].
  apply stored_survives. simpl. pose proof window_positive. lia.
Qed.

(** A call inside the window, below the maximum, is counted. *)
Lemma check_counted (n reset : Z) :
  map_get ip m = Some (mkClient n reset) -> now <= reset ->
  n < RATE_LIMIT_MAX_REQUESTS ->
  fst (checkRateLimit now ip m) = true
  /\ map_get ip (snd (checkRateLimit now ip m)) = Some (mkClient (n + 1) reset).
Proof.
  intros Hget Hin Hn. unfold checkRateLimit. rewrite Hget. simpl resetTime.
  rewrite gtb_false by exact Hin.
  simpl requests.
  rewrite geb_false by exact Hn.
  simpl. split; [reflexivity|].
  apply stored_survives. simpl. pose proof window_positive. lia.
Qed.

(** A call inside the window, at the maximum, is refused and changes
    nothing. *)
Lemma check_refused (n reset : Z) :
  map_get ip m = Some (mkClient n reset) -> now <= reset ->
  RATE_LIMIT_MAX_REQUESTS <= n ->
  checkRateLimit now ip m = (false, m).
Proof.
  intros Hget Hin Hn. unfold checkRateLimit. rewrite Hget. simpl resetTime.
  rewrite gtb_false by exact Hin.
  simpl requests.
  rewrite geb_true by exact Hn.
  reflexivity.
Qed.

End OneCall.

(** Calls inside the window are all allowed while the maximum is not
    passed, and each is counted. *)
Lemma run_counted (ip : string) (times : list Z) :
  forall (m : rateLimitMap) (n reset : Z),
    map_get ip m = Some (mkClient n reset) ->
    Forall (fun t => t <= reset) times ->
    n + Z.of_nat (List.length times) <= RATE_LIMIT_MAX_REQUESTS ->
    fst (run ip times m) = repeat true (List.length times)
    /\ map_get ip (snd (run ip times m))
       = Some (mkClient (n + Z.of_nat (List.length times)) reset).
Proof.
  induction times as [|t later IH]; intros m n reset Hget Hin Hmax.
  - simpl. rewrite Z.add_0_r. auto.
  - inversion Hin as [|? ? Ht Hlater]; subst.
    simpl List.length in *. rewrite Nat2Z.inj_succ in *.
    destruct (check_counted t ip m n reset Hget Ht) as [Ha Hm]; [lia|].
    simpl. destruct (checkRateLimit t ip m) as [allowed m'].
    simpl in Ha, Hm. subst allowed.
    destruct (IH m' (n + 1) reset Hm Hlater) as [Hr Hm']; [lia|].
    destruct (run ip later m') as [rest m'']. simpl in *.
    rewrite Hr. split; [reflexivity|].
    rewrite Hm'. f_equal. f_equal. lia.
Qed.

Lemma check_opening (t : Z) (ip : string) (m : rateLimitMap) :
  starts_window t ip m = true ->
  fst (checkRateLimit t ip m) = true
  /\ map_get ip (snd (checkRateLimit t ip m))
     = Some (mkClient 1 (t + RATE_LIMIT_WINDOW_MS)).
Proof.
  unfold starts_window. destruct (map_get ip m) as [d|] eqn:E; intros H.
  - apply check_expired with d; [exact E | now apply Z.ltb_lt].
  - now apply check_first.
Qed.

End Limiter.

(** C6.  The limiter counts in a fixed window of 60,000 ms with at most 30
    requests per IP.  For one client whose window opens with the call at
    [t1]: that call and the next 29 inside the window are allowed, after
    which the counter is 30; a 31st call inside the window is refused and
    leaves the map as it is; a call after the window has elapsed is allowed
    again. *)
Theorem C6_rate_limiter_window
  (ip : string) (m : Hardened.rateLimitMap) (t1 t31 later : Z) (rest : list Z) :
  starts_window t1 ip m = true ->
  List.length rest = 29%nat ->
  Forall (fun t => t <= t1 + Hardened.RATE_LIMIT_WINDOW_MS) (rest ++ [t31])%list ->
  t1 + Hardened.RATE_LIMIT_WINDOW_MS < later ->
  Hardened.RATE_LIMIT_WINDOW_MS = 60000
  /\ Hardened.RATE_LIMIT_MAX_REQUESTS = 30
  /\ fst (run ip (t1 :: rest) m) = repeat true 30
  /\ Hardened.map_get ip (snd (run ip (t1 :: rest) m))
     = Some (Hardened.mkClient 30 (t1 + Hardened.RATE_LIMIT_WINDOW_MS))
  /\ Hardened.checkRateLimit t31 ip (snd (run ip (t1 :: rest) m))
     = (false, snd (run ip (t1 :: rest) m))
  /\ fst (Hardened.checkRateLimit later ip (snd (run ip (t1 :: rest) m)))
     = true.
Proof.
  intros Hstart Hlen Hin Hlater.
  apply Forall_app in Hin. destruct Hin as [Hrest H31].
  inversion H31 as [|? ? Ht31 _]; subst.
  destruct (Limiter.check_opening t1 ip m Hstart) as [Ha Hm].
  assert (Hrun :
    fst (run ip (t1 :: rest) m) = repeat true 30
    /\ Hardened.map_get ip (snd (run ip (t1 :: rest) m))
       = Some (Hardened.mkClient 30 (t1 + Hardened.RATE_LIMIT_WINDOW_MS))).
  { simpl run.
    destruct (Hardened.checkRateLimit t1 ip m) as [allowed m1].
    simpl in Ha, Hm. subst allowed.
    destruct (Limiter.run_counted ip rest m1 1 _ Hm Hrest) as [Hr Hm'].
    { rewrite Hlen. unfold Hardened.RATE_LIMIT_MAX_REQUESTS. lia. }
    destruct (run ip rest m1) as [bs m30]. simpl in *.
    rewrite Hr, Hm', Hlen. split; reflexivity. }
  destruct Hrun as [Hbs Hm30].
  repeat split; auto.
  - eapply Limiter.check_refused; [exact Hm30 | exact Ht31 |].
    unfold Hardened.RATE_LIMIT_MAX_REQUESTS. lia.
  - eapply Limiter.check_expired; [exact Hm30 | exact Hlater].
Qed.

Lemma C6_rate_limiter_window_witness :
  fst (run "203.0.113.7" (0 :: repeat 500 29) []) = repeat true 30
  /\ Hardened.checkRateLimit 60000 "203.0.113.7"
       (snd (run "203.0.113.7" (0 :: repeat 500 29) []))
     = (false, snd (run "203.0.113.7" (0 :: repeat 500 29) []))
  /\ fst (Hardened.checkRateLimit 60001 "203.0.113.7"
            (snd (run "203.0.113.7" (0 :: repeat 500 29) [])))
     = true.
Proof.
  assert (Hin : Forall (fun t => t <= 0 + Hardened.RATE_LIMIT_WINDOW_MS)
                       (repeat 500 29 ++ [60000])%list).
  { apply Forall_forall. intros t Ht. apply in_app_or in Ht.
    destruct Ht as [Ht | [<- | []]].
    - apply repeat_spec in Ht. subst t. vm_compute. discriminate.
    - vm_compute. discriminate. }
  destruct (C6_rate_limiter_window "203.0.113.7" [] 0 60000 60001
              (repeat 500 29) eq_refl eq_refl Hin eq_refl)
    as (_ & _ & Hbs & _ & H31 & Hnext).
  repeat split; assumption.
Defined.

Lemma within_limit_set (k : string) (d : Hardened.clientData)
      (m : Hardened.rateLimitMap) :
  Hardened.requests d <= Hardened.RATE_LIMIT_MAX_REQUESTS ->
  within_limit m -> within_limit (Hardened.map_set k d m).
Proof.
  intros Hd. unfold within_limit.
  induction m as [|[k' d'] r IH]; simpl; intros Hm.
  - constructor; auto.
  - inversion Hm; subst.
    destruct (String.eqb k k'); constructor; auto.
Qed.

Lemma within_limit_filter (p : string * Hardened.clientData -> bool)
      (m : Hardened.rateLimitMap) :
  within_limit m -> within_limit (filter p m).
Proof.
  unfold within_limit. intros Hm. rewrite Forall_forall in *.
  intros e He. apply filter_In in He. now apply Hm.
Qed.

(** One call keeps every counter within the maximum. *)
Lemma checkRateLimit_within_limit (now : Z) (ip : string)
      (m : Hardened.rateLimitMap) :
  within_limit m -> within_limit (snd (Hardened.checkRateLimit now ip m)).
Proof.
  intros Hm. unfold Hardened.checkRateLimit.
  set (stored := Hardened.map_get ip m).
  set (fresh := Hardened.mkClient 0 (now + Hardened.RATE_LIMIT_WINDOW_MS)).
  set (data0 := match stored with Some d => d | None => fresh end).
  set (data := if now >? Hardened.resetTime data0 then fresh else data0).
  set (m1 := if now >? Hardened.resetTime data0
             then match stored with
                  | Some _ => Hardened.map_set ip data m
                  | None => m
                  end
             else m).
  assert (Hm1 : within_limit m1).
  { unfold m1, data. destruct (now >? Hardened.resetTime data0); auto.
    destruct stored; auto. apply within_limit_set; auto. simpl.
    unfold Hardened.RATE_LIMIT_MAX_REQUESTS. lia. }
  destruct (Hardened.requests data >=? Hardened.RATE_LIMIT_MAX_REQUESTS) eqn:E;
    simpl; auto.
  assert (Hset : within_limit
                   (Hardened.map_set ip
                      (Hardened.mkClient (Hardened.requests data + 1)
                                         (Hardened.resetTime data)) m1)).
  { apply within_limit_set; auto. simpl.
    rewrite Z.geb_leb in E. apply Z.leb_gt in E. lia. }
  destruct (Z.of_nat _ >? 1000); auto.
  now apply within_limit_filter.
Qed.

(** C9.  In every state of the map reached from the empty map by calls of
    [checkRateLimit], every stored counter is at most
    RATE_LIMIT_MAX_REQUESTS, which is 30. *)
Theorem C9_counter_never_exceeds_max
  (m : Hardened.rateLimitMap) (ip : string) (d : Hardened.clientData) :
  reachable m -> In (ip, d) m ->
  Hardened.requests d <= Hardened.RATE_LIMIT_MAX_REQUESTS
  /\ Hardened.RATE_LIMIT_MAX_REQUESTS = 30.
Proof.
  intros Hreach.
  assert (Hall : within_limit m).
  { induction Hreach as [|m now ip' _ IH].
    - constructor.
    - now apply checkRateLimit_within_limit. }
  intros Hin. split; [|reflexivity].
  unfold within_limit in Hall. rewrite Forall_forall in Hall.
  exact (Hall _ Hin).
Qed.

Lemma C9_counter_never_exceeds_max_witness :
  Hardened.requests (Hardened.mkClient 1 60005)
  <= Hardened.RATE_LIMIT_MAX_REQUESTS.
Proof.
  refine (proj1 (C9_counter_never_exceeds_max
                   (snd (Hardened.checkRateLimit 5 "203.0.113.7" []))
                   "203.0.113.7" (Hardened.mkClient 1 60005) _ _)).
  - apply reachable_call, reachable_empty.
  - vm_compute. left. reflexivity.
Defined.

(** ** The upstream query *)

Example strip_example :
  strip "jer$sey <b>(new)</b>, v1.0-x_y&z=1" = "jersey b(new)b, v1.0-x_yz1".
Proof. reflexivity. Qed.

Lemma all_chars_filter_chars (p : ascii -> bool) (s : string) :
  all_chars p (filter_chars p s) = true.
Proof.
  induction s as [|c r IH]; simpl; auto.
  destruct (p c) eqn:E; simpl; auto. now rewrite E.
Qed.

Lemma filter_chars_clean (p : ascii -> bool) (s : string) :
  all_chars p s = true -> filter_chars p s = s.
Proof.
  induction s as [|c r IH]; simpl; auto.
  destruct (p c); simpl; [|discriminate]. intros H. now rewrite IH.
Qed.

Lemma lookup_NoDup (fields : object) (k : string) (v : value) :
  NoDup (List.map fst fields) -> In (k, v) fields -> lookup k fields = Some v.
Proof.
  induction fields as [|[k' v'] r IH]; simpl; intros Hnd Hin; [contradiction|].
  inversion Hnd as [|? ? Hnotin Hnd']; subst.
  destruct Hin as [[= -> ->] | Hin].
  - now rewrite String.eqb_refl.
  - destruct (String.eqb k k') eqn:E.
    + apply String.eqb_eq in E. subst k'. exfalso. apply Hnotin.
      now apply (in_map fst) in Hin.
    + now apply IH.
Qed.

Lemma mapM_ext_in {A B : Type} (f g : A -> res B) (l : list A) :
  (forall x, In x l -> f x = g x) -> mapM f l = mapM g l.
Proof.
  induction l as [|x r IH]; simpl; intros H; auto.
  rewrite (H x) by now left. rewrite IH; auto.
Qed.

Lemma mapM_map {A B C : Type} (f : B -> res C) (g : A -> B) (l : list A) :
  mapM f (List.map g l) = mapM (fun x => f (g x)) l.
Proof.
  induction l as [|x r IH]; simpl; auto. now rewrite IH.
Qed.

(** Walking the keys and reading each value back from the object is
    walking its properties. *)
Lemma keys_then_values {A : Type} (each : string -> value -> res A)
      (fields : object) :
  NoDup (List.map fst fields) ->
  mapM (fun key => each key (property fields key)) (List.map fst fields)
  = mapM (fun kv => each (fst kv) (snd kv)) fields.
Proof.
  intros Hnd. rewrite mapM_map. apply mapM_ext_in.
  intros [k v] Hin. simpl. unfold property.
  now rewrite (lookup_NoDup fields k v Hnd Hin).
Qed.

Lemma flat_map_filter_map {A B : Type} (p : A -> bool) (f : A -> B) (l : list A) :
  flat_map (fun x => if p x then [f x] else []) l = List.map f (filter p l).
Proof.
  induction l as [|x r IH]; simpl; auto.
  destruct (p x); simpl; now rewrite IH.
Qed.

Lemma flat_map_filter_map_filter {A B : Type}
      (p : A -> bool) (f : A -> B) (q : B -> bool) (l : list A) :
  flat_map (fun x => if p x then if q (f x) then [f x] else [] else []) l
  = filter q (List.map f (filter p l)).
Proof.
  induction l as [|x r IH]; simpl; auto.
  destruct (p x); simpl; [destruct (q (f x)); simpl|]; now rewrite IH.
Qed.

Lemma ToString_convertible (v : value) :
  convertible v = true -> ToString v = Ok (display v).
Proof. unfold ToString. now intros ->. Qed.

Lemma ToString_not_convertible (v : value) :
  convertible v = false -> ToString v = Throw cannot_convert.
Proof. unfold ToString. now intros ->. Qed.

(** The conversions of the forwarded values, one after the other: all of
    them return, or the first that throws ends the walk. *)
Lemma conversions {A : Type} (each : string * value -> string -> list A)
      (fields : object) :
  mapM (fun kv =>
          if forwardable (snd kv)
          then bind (ToString (snd kv)) (fun text => Ok (each kv text))
          else Ok [])
       fields
  = if all_convertible fields
    then Ok (List.map (fun kv => if forwardable (snd kv)
                                 then each kv (display (snd kv)) else [])
                      fields)
    else Throw cannot_convert.
Proof.
  unfold all_convertible.
  induction fields as [|[k v] r IH]; simpl; auto.
  destruct (forwardable v); simpl.
  - destruct (convertible v) eqn:C; simpl.
    + rewrite (ToString_convertible v C). simpl. rewrite IH.
      destruct (forallb _ r); reflexivity.
    + now rewrite (ToString_not_convertible v C).
  - rewrite IH. destruct (forallb _ r); reflexivity.
Qed.

Lemma Open_forwarded_pairs (fields : object) :
  NoDup (List.map fst fields) ->
  Open.forwarded (VObj fields)
  = if all_convertible fields then Ok (verbatim_pairs fields)
    else Throw cannot_convert.
Proof.
  intros Hnd. unfold Open.forwarded, verbatim_pairs. simpl own_properties.
  rewrite (keys_then_values
             (fun key value =>
                if forwardable value
                then bind (ToString value) (fun text => Ok [(key, text)])
                else Ok []))
    by assumption.
  rewrite (conversions (fun kv text => [(fst kv, text)])).
  destruct (all_convertible fields); simpl; [|reflexivity].
  rewrite <- flat_map_concat_map.
  now rewrite (flat_map_filter_map (fun kv => forwardable (snd kv))
                 (fun kv => (fst kv, display (snd kv)))).
Qed.

Lemma Hardened_forwarded_pairs (fields : object) :
  NoDup (List.map fst fields) ->
  Hardened.forwarded (VObj fields)
  = if all_convertible fields then Ok (sanitized_pairs fields)
    else Throw cannot_convert.
Proof.
  intros Hnd. unfold Hardened.forwarded, sanitized_pairs. simpl own_properties.
  rewrite (keys_then_values
             (fun key value =>
                if forwardable value
                then bind (ToString value)
                       (fun text =>
                          if nonempty (filter_chars Hardened.allowed_char text)
                          then Ok [(key, filter_chars Hardened.allowed_char text)]
                          else Ok [])
                else Ok []))
    by assumption.
  rewrite (mapM_ext_in _
             (fun kv =>
                if forwardable (snd kv)
                then bind (ToString (snd kv))
                       (fun text =>
                          Ok (if nonempty (strip text)
                              then [(fst kv, strip text)] else []))
                else Ok [])).
  - rewrite (conversions
               (fun kv text =>
                  if nonempty (strip text) then [(fst kv, strip text)] else [])).
    destruct (all_convertible fields); simpl; [|reflexivity].
    rewrite <- flat_map_concat_map.
    now rewrite <- (flat_map_filter_map_filter
                      (fun kv => forwardable (snd kv))
                      (fun kv => (fst kv, strip (display (snd kv))))
                      (fun kv => nonempty (snd kv))).
  - intros [k v] _. simpl. destruct (forwardable v); [|reflexivity].
    destruct (ToString v) as [text|e]; simpl; [|reflexivity].
    unfold strip. destruct (nonempty _); reflexivity.
Qed.

Lemma sanitized_pairs_clean (fields : object) :
  Forall (fun kv => all_chars Hardened.allowed_char (snd kv) = true
                    /\ snd kv <> "")
         (sanitized_pairs fields).
Proof.
  apply Forall_forall. intros [k s] Hin. unfold sanitized_pairs in Hin.
  apply filter_In in Hin. destruct Hin as [Hin Hne].
  apply in_map_iff in Hin. destruct Hin as ([k' v] & [= <- <-] & _).
  simpl in *. split.
  - apply all_chars_filter_chars.
  - intros E. rewrite E in Hne. discriminate.
Qed.

(** Only an object with a search term passes the validator. *)
Lemma validated_body (searchParams nkw : value) (missing : bool) :
  GetV searchParams "_nkw" = Ok nkw ->
  (if truthy nkw then Ok false
   else category_id <- GetV searchParams "category_id" ;;
        Ok (negb (truthy category_id))) = Ok missing ->
  missing = false ->
  exists fields,
    searchParams = VObj fields
    /\ truthy (property fields "_nkw") || truthy (property fields "category_id")
       = true.
Proof.
  intros Hn Hm ->.
  destruct (truthy nkw) eqn:Tn.
  - destruct (named_property_of_object _ _ "_nkw" eq_refl eq_refl Hn Tn)
      as [fields ->].
    exists fields. split; [reflexivity|].
    simpl in Hn. injection Hn as Hn. unfold property. rewrite Hn, Tn. reflexivity.
  - destruct (GetV searchParams "category_id") as [category_id|e] eqn:Hc;
      simpl in Hm; [|discriminate].
    injection Hm as Hm. apply negb_false_iff in Hm.
    destruct (named_property_of_object _ _ "category_id" eq_refl eq_refl Hc Hm)
      as [fields ->].
    exists fields. split; [reflexivity|].
    simpl in Hc. injection Hc as Hc. unfold property at 2. rewrite Hc, Hm.
    apply orb_true_r.
Qed.

Lemma Hardened_validated_body (env : environment) (req : request) (q : query) :
  Hardened.prepare env req = Ok (Forward q) ->
  exists fields,
    body req = VObj fields
    /\ truthy (property fields "_nkw") || truthy (property fields "category_id")
       = true.
Proof.
  unfold Hardened.prepare. intros H.
  destruct (SERPAPI_KEY env) as [key|]; [|discriminate].
  destruct (negb (nonempty key)); [discriminate|].
  destruct (negb (truthy (body req)) || negb (is_object (body req)));
    [discriminate|].
  destruct (GetV (body req) "_nkw") as [nkw|e] eqn:Hn; simpl in H; [|discriminate].
  match type of H with
  | bind ?c _ = _ => destruct c as [missing|e] eqn:Hm; simpl in H; [|discriminate]
  end.
  destruct missing eqn:M; [discriminate|].
  now apply (validated_body _ _ _ Hn Hm).
Qed.

Lemma Open_validated_body (env : environment) (req : request) (q : query) :
  Open.prepare env req = Ok (Forward q) ->
  exists fields,
    body req = VObj fields
    /\ truthy (property fields "_nkw") || truthy (property fields "category_id")
       = true.
Proof.
  unfold Open.prepare. intros H.
  destruct (SERPAPI_KEY env) as [key|]; [|discriminate].
  destruct (negb (nonempty key)); [discriminate|].
  destruct (GetV (body req) "_nkw") as [nkw|e] eqn:Hn; simpl in H; [|discriminate].
  match type of H with
  | bind ?c _ = _ => destruct c as [missing|e] eqn:Hm; simpl in H; [|discriminate]
  end.
  destruct missing eqn:M; [discriminate|].
  now apply (validated_body _ _ _ Hn Hm).
Qed.

(** C7 fails on the sanitising revision for a value of which the stripping
    leaves nothing: ["$$$"] is not null, undefined or empty, yet no pair is
    appended for it. *)
Lemma C7_counterexample_emptied_value_dropped :
  let req :=
    mkRequest "POST" [] None
              (VObj [("_nkw", VStr "jersey"); ("tag", VStr "$$$")]) in
  forwardable (VStr "$$$") = true
  /\ Hardened.prepare sample_env req
     = Ok (Forward [("engine", "ebay"); ("api_key", "KEY");
                    ("ebay_domain", "ebay.com"); ("_nkw", "jersey")]).
Proof. split; reflexivity. Qed.

(** C7 (amended).  For a validated body, an object with [_nkw] or
    [category_id], the query is [engine=ebay], [api_key=<secret>],
    [ebay_domain=ebay.com] followed, in the order of [Object.keys], by one
    pair for every property whose value is not null, undefined or the empty
    string, the value converted to a string.  The open revisions forward
    the converted value as it is.  The sanitising revision strips every
    character outside [A-Za-z0-9_\s.,()-] from it and forwards the pair
    only when something is left, so that every forwarded value is non-empty
    and made of allowed characters.  This is the query of the one upstream
    call a POST request then makes.  When one of these values does not
    convert to a string (an object with an own [toString] property, also as
    an element of an array), the conversion throws: no query is sent and
    the reply is the 500 of the catch-all. *)
Theorem C7_upstream_query
  (env : environment) (req : request) (API_KEY : string) (fields : object) :
  SERPAPI_KEY env = Some API_KEY -> nonempty API_KEY = true ->
  body req = VObj fields -> NoDup (List.map fst fields) ->
  truthy (property fields "_nkw") || truthy (property fields "category_id") = true ->
  let fixed :=
    [("engine", "ebay"); ("api_key", API_KEY); ("ebay_domain", "ebay.com")] in
  let thrown := failure "Cannot convert object to primitive value" in
  (all_convertible fields = true ->
   Hardened.prepare env req = Ok (Forward (fixed ++ sanitized_pairs fields)%list)
   /\ Open.prepare env req = Ok (Forward (fixed ++ verbatim_pairs fields)%list)
   /\ Forall (fun kv => all_chars Hardened.allowed_char (snd kv) = true
                        /\ snd kv <> "")
             (sanitized_pairs fields)
   /\ (method req = "POST" ->
       forall w,
         calls (Comprehensive.handler env w req)
         = [(fixed ++ verbatim_pairs fields)%list]
         /\ calls (Basic.handler env w req)
            = [(fixed ++ verbatim_pairs fields)%list]
         /\ forall m,
              fst (Hardened.checkRateLimit (now w) (Hardened.getClientIP req) m)
              = true ->
              calls (fst (Hardened.handler env w m req))
              = [(fixed ++ sanitized_pairs fields)%list]))
  /\ (all_convertible fields = false ->
      Hardened.prepare env req = Throw cannot_convert
      /\ Open.prepare env req = Throw cannot_convert
      /\ (method req = "POST" ->
          forall w,
            Comprehensive.handler env w req
            = mkOutcome (mkResponse 500 Open.cors_headers thrown) []
            /\ Basic.handler env w req
               = mkOutcome (mkResponse 500 Open.cors_headers thrown) []
            /\ forall m,
                 fst (Hardened.checkRateLimit (now w) (Hardened.getClientIP req) m)
                 = true ->
                 fst (Hardened.handler env w m req)
                 = mkOutcome
                     (mkResponse 500 (Hardened.handleCORS env req) thrown) [])).
Proof.
  intros Hkey Hne Hbody Hnd Hq fixed thrown.
  assert (Hh : Hardened.prepare env req
               = if all_convertible fields
                 then Ok (Forward (fixed ++ sanitized_pairs fields)%list)
                 else Throw cannot_convert).
  { unfold Hardened.prepare. rewrite Hkey, Hne, Hbody. simpl.
    fold (property fields "_nkw"). fold (property fields "category_id").
    rewrite Hardened_forwarded_pairs by assumption.
    destruct (truthy (property fields "_nkw")); simpl;
      [|simpl in Hq; rewrite Hq; simpl];
      destruct (all_convertible fields); reflexivity. }
  assert (Ho : Open.prepare env req
               = if all_convertible fields
                 then Ok (Forward (fixed ++ verbatim_pairs fields)%list)
                 else Throw cannot_convert).
  { unfold Open.prepare. rewrite Hkey, Hne, Hbody. simpl.
    fold (property fields "_nkw"). fold (property fields "category_id").
    rewrite Open_forwarded_pairs by assumption.
    destruct (truthy (property fields "_nkw")); simpl;
      [|simpl in Hq; rewrite Hq; simpl];
      destruct (all_convertible fields); reflexivity. }
  split; intros Hc; rewrite Hc in Hh, Ho.
  - split; [exact Hh|]. split; [exact Ho|].
    split; [apply sanitized_pairs_clean|].
    intros Hm w.
    unfold Comprehensive.handler, Basic.handler, Open.handler, Hardened.handler.
    rewrite Hm, Ho, Hh. simpl.
    repeat split.
    + destruct (Open.conclude _ _) as [[code json]|e]; reflexivity.
    + destruct (Open.conclude _ _) as [[code json]|e]; reflexivity.
    + intros m Ha.
      destruct (Hardened.checkRateLimit _ _ m) as [allowed m']. simpl in Ha.
      subst allowed. simpl.
      destruct (Hardened.conclude _) as [[code json]|e]; [reflexivity|].
      destruct (String.eqb (name e) "AbortError"); reflexivity.
  - split; [exact Hh|]. split; [exact Ho|].
    intros Hm w.
    unfold Comprehensive.handler, Basic.handler, Open.handler, Hardened.handler.
    rewrite Hm, Ho, Hh. simpl.
    repeat split.
    intros m Ha.
    destruct (Hardened.checkRateLimit _ _ m) as [allowed m']. simpl in Ha.
    subst allowed. reflexivity.
Qed.

Lemma C7_upstream_query_witness :
  let req :=
    mkRequest "POST" [] None
              (VObj [("_nkw", VStr "jer$sey"); ("page", VNum (Finite 2));
                     ("color", VStr ""); ("tag", VStr "$$$")]) in
  let odd :=
    mkRequest "POST" [] None
              (VObj [("_nkw", VStr "a");
                     ("x", VObj [("toString", VNum (Finite 1))])]) in
  calls (fst (Hardened.handler sample_env sample_world [] req))
  = [[("engine", "ebay"); ("api_key", "KEY"); ("ebay_domain", "ebay.com");
      ("_nkw", "jersey"); ("page", "2")]]
  /\ calls (Comprehensive.handler sample_env sample_world req)
     = [[("engine", "ebay"); ("api_key", "KEY"); ("ebay_domain", "ebay.com");
         ("_nkw", "jer$sey"); ("page", "2"); ("tag", "$$$")]]
  /\ fst (Hardened.handler sample_env sample_world [] odd)
     = mkOutcome
         (mkResponse 500 (Hardened.handleCORS sample_env odd)
            (failure "Cannot convert object to primitive value")) [].
Proof.
  intros req odd.
  assert (Hnd : NoDup (List.map fst
                   [("_nkw", VStr "jer$sey"); ("page", VNum (Finite 2));
                    ("color", VStr ""); ("tag", VStr "$$$")])).
  { simpl. repeat constructor; simpl; intuition discriminate. }
  assert (Hnd' : NoDup (List.map fst
                   [("_nkw", VStr "a");
                    ("x", VObj [("toString", VNum (Finite 1))])])).
  { simpl. repeat constructor; simpl; intuition discriminate. }
  destruct (C7_upstream_query sample_env req "KEY" _
              eq_refl eq_refl eq_refl Hnd eq_refl)
    as (Hyes & _).
  destruct (Hyes eq_refl) as (_ & _ & _ & H).
  destruct (H eq_refl sample_world) as (Hc & _ & Hh).
  destruct (C7_upstream_query sample_env odd "KEY" _
              eq_refl eq_refl eq_refl Hnd' eq_refl)
    as (_ & Hno).
  destruct (Hno eq_refl) as (_ & _ & H').
  destruct (H' eq_refl sample_world) as (_ & _ & Hh').
  split; [exact (Hh [] eq_refl) | split; [exact Hc | exact (Hh' [] eq_refl)]].
Defined.

(** * Further properties of the handlers *)

(** ** What the [try] region decides before the upstream call *)

(** The hardened validator throws only when a value of the body does not
    convert to a string: the body check comes before the first property
    read. *)
Lemma Hardened_prepare_cases (env : environment) (req : request) :
  (configured env = false /\ Hardened.prepare env req = Ok missing_key)
  \/ (configured env = true
      /\ (Hardened.prepare env req
          = Ok (Reply 400 (error_body "Invalid request body"))
          \/ Hardened.prepare env req = Ok missing_query
          \/ (exists e, Hardened.forwarded (body req) = Throw e
                        /\ Hardened.prepare env req = Throw e)
          \/ exists API_KEY q,
               SERPAPI_KEY env = Some API_KEY
               /\ Hardened.forwarded (body req) = Ok q
               /\ Hardened.prepare env req
                  = Ok (Forward (fixed_parameters API_KEY ++ q)%list))).
Proof.
  unfold Hardened.prepare, configured.
  destruct (SERPAPI_KEY env) as [key|]; [|left; auto].
  destruct (nonempty key); simpl; [right; split; auto | left; auto].
  destruct (negb (truthy (body req)) || negb (is_object (body req))) eqn:B;
    [left; reflexivity | right].
  apply orb_false_iff in B. destruct B as [Bt Bo].
  apply negb_false_iff in Bt, Bo.
  assert (Hget : forall k, exists r, GetV (body req) k = Ok r).
  { intros k. destruct (body req); try discriminate; simpl; eauto. }
  assert (Hfwd :
    (exists e, Hardened.forwarded (body req) = Throw e
               /\ bind (Hardened.forwarded (body req))
                    (fun q => Ok (Forward (fixed_parameters key ++ q)%list))
                  = Throw e)
    \/ exists API_KEY q,
         Some key = Some API_KEY
         /\ Hardened.forwarded (body req) = Ok q
         /\ bind (Hardened.forwarded (body req))
              (fun q => Ok (Forward (fixed_parameters key ++ q)%list))
            = Ok (Forward (fixed_parameters API_KEY ++ q)%list)).
  { destruct (Hardened.forwarded (body req)) as [q|e]; simpl; eauto 10. }
  destruct (Hget "_nkw") as [nkw ->]. simpl.
  destruct (truthy nkw); simpl; [right; exact Hfwd|].
  destruct (Hget "category_id") as [cat ->]. simpl.
  destruct (truthy cat); simpl; [right; exact Hfwd | left; reflexivity].
Qed.

(** The open validator either throws, on the first property read or on a
    value that does not convert, or decides as the hardened one does after
    its body check. *)
Lemma Open_prepare_cases (env : environment) (req : request) :
  (configured env = false /\ Open.prepare env req = Ok missing_key)
  \/ (configured env = true
      /\ ((exists e, Open.prepare env req = Throw e)
          \/ Open.prepare env req = Ok missing_query
          \/ exists API_KEY q,
               SERPAPI_KEY env = Some API_KEY
               /\ Open.forwarded (body req) = Ok q
               /\ Open.prepare env req
                  = Ok (Forward (fixed_parameters API_KEY ++ q)%list))).
Proof.
  unfold Open.prepare, configured.
  destruct (SERPAPI_KEY env) as [key|]; [|left; auto].
  destruct (nonempty key); simpl; [right; split; auto | left; auto].
  assert (Hfwd :
    (exists e, bind (Open.forwarded (body req))
                 (fun q => Ok (Forward (fixed_parameters key ++ q)%list))
               = Throw e)
    \/ exists API_KEY q,
         Some key = Some API_KEY
         /\ Open.forwarded (body req) = Ok q
         /\ bind (Open.forwarded (body req))
              (fun q => Ok (Forward (fixed_parameters key ++ q)%list))
            = Ok (Forward (fixed_parameters API_KEY ++ q)%list)).
  { destruct (Open.forwarded (body req)) as [q|e]; simpl; eauto 10. }
  destruct (GetV (body req) "_nkw") as [nkw|e]; simpl; [|left; eauto].
  destruct (truthy nkw); simpl;
    [destruct Hfwd as [Ht|Hf]; [left; exact Ht | right; right; exact Hf]|].
  destruct (GetV (body req) "category_id") as [cat|e]; simpl; [|left; eauto].
  destruct (truthy cat); simpl;
    [destruct Hfwd as [Ht|Hf]; [left; exact Ht | right; right; exact Hf]
    | right; left; reflexivity].
Qed.

(** A reply decided after the upstream call is a 200 or a 400. *)
Lemma Hardened_conclude_codes (f : fetched) (code : Z) (json : value) :
  Hardened.conclude f = Ok (code, json) -> code = 200 \/ code = 400.
Proof.
  unfold Hardened.conclude. intros H.
  destruct f as [e|ok c st js]; [discriminate|].
  destruct (negb ok); [discriminate|].
  bind_inversion H; subst; auto.
Qed.

Lemma Open_conclude_codes (cleanProduct : value -> res value)
      (f : fetched) (code : Z) (json : value) :
  Open.conclude cleanProduct f = Ok (code, json) -> code = 200 \/ code = 400.
Proof.
  unfold Open.conclude. intros H.
  destruct f as [e|ok c st js]; [discriminate|].
  destruct (negb ok); [discriminate|].
  bind_inversion H; subst; auto.
Qed.

(** ** Refusals of the limiter *)

Lemma refusal_inv (now : Z) (ip : string) (m : Hardened.rateLimitMap) :
  fst (Hardened.checkRateLimit now ip m) = false ->
  snd (Hardened.checkRateLimit now ip m) = m
  /\ exists d, Hardened.map_get ip m = Some d
               /\ Hardened.RATE_LIMIT_MAX_REQUESTS <= Hardened.requests d
               /\ now <= Hardened.resetTime d.
Proof.
  unfold Hardened.checkRateLimit.
  destruct (Hardened.map_get ip m) as [d|] eqn:G.
  - destruct (now >? Hardened.resetTime d) eqn:E; simpl.
    + discriminate.
    + destruct (Hardened.requests d >=? Hardened.RATE_LIMIT_MAX_REQUESTS) eqn:R;
        simpl; [|discriminate].
      intros _. split; [reflexivity|]. exists d. repeat split.
      * rewrite Z.geb_leb in R. now apply Z.leb_le.
      * rewrite Z.gtb_ltb in E. now apply Z.ltb_ge.
  - simpl.
    destruct (now >? now + Hardened.RATE_LIMIT_WINDOW_MS); simpl; discriminate.
Qed.

(** A refused call changes nothing in the map, and a call is refused only
    when the client's record stands at the maximum inside its window: a
    client never seen before, or one whose window is over, is never
    refused. *)
Theorem refused_call_changes_nothing
  (now : Z) (ip : string) (m : Hardened.rateLimitMap) :
  fst (Hardened.checkRateLimit now ip m) = false ->
  snd (Hardened.checkRateLimit now ip m) = m
  /\ exists d, Hardened.map_get ip m = Some d
               /\ Hardened.RATE_LIMIT_MAX_REQUESTS <= Hardened.requests d
               /\ now <= Hardened.resetTime d.
Proof. exact (refusal_inv now ip m). Qed.

Lemma refused_call_changes_nothing_witness :
  snd (Hardened.checkRateLimit 1000 "203.0.113.7"
         [("203.0.113.7", Hardened.mkClient 30 5000)])
  = [("203.0.113.7", Hardened.mkClient 30 5000)].
Proof.
  exact (proj1 (refused_call_changes_nothing 1000 "203.0.113.7"
                  [("203.0.113.7", Hardened.mkClient 30 5000)] eq_refl)).
Defined.

(** ** Replies that need no upstream call *)

Ltac open_handlers :=
  unfold Comprehensive.handler, Basic.handler, Open.handler.

(** The preflight: an OPTIONS request is answered with 200 and no body in
    every revision, whatever the environment, the body and the limiter
    hold; nothing is sent upstream and the limiter is not charged. *)
Theorem OPTIONS_preflight
  (env : environment) (w : world) (m : Hardened.rateLimitMap) (req : request) :
  method req = "OPTIONS" ->
  Hardened.handler env w m req
  = (mkOutcome (mkResponse 200 (Hardened.handleCORS env req) None) [], m)
  /\ Comprehensive.handler env w req
     = mkOutcome (mkResponse 200 Open.cors_headers None) []
  /\ Basic.handler env w req
     = mkOutcome (mkResponse 200 Open.cors_headers None) [].
Proof.
  intros Hm. unfold Hardened.handler. open_handlers. rewrite Hm.
  repeat split.
Qed.

Lemma OPTIONS_preflight_witness :
  status (reply (fst (Hardened.handler (mkEnv None None) sample_world []
                        (mkRequest "OPTIONS" [] None VNull)))) = 200.
Proof.
  rewrite (proj1 (OPTIONS_preflight (mkEnv None None) sample_world []
                    (mkRequest "OPTIONS" [] None VNull) eq_refl)).
  reflexivity.
Defined.

(** Every reply of a handler carries the CORS headers, whatever its
    status: those of [handleCORS] in the hardened revision, the open ones
    in the other two. *)
Theorem every_reply_has_CORS_headers
  (env : environment) (w : world) (m : Hardened.rateLimitMap) (req : request) :
  sent_headers (reply (fst (Hardened.handler env w m req)))
  = Hardened.handleCORS env req
  /\ sent_headers (reply (Comprehensive.handler env w req)) = Open.cors_headers
  /\ sent_headers (reply (Basic.handler env w req)) = Open.cors_headers.
Proof.
  unfold Hardened.handler. open_handlers.
  destruct (String.eqb (method req) "OPTIONS"); [repeat split|].
  destruct (String.eqb (method req) "POST"); simpl; [|repeat split].
  split; [|split].
  - destruct (Hardened.checkRateLimit _ _ m) as [[|] m']; simpl; auto.
    destruct (Hardened.prepare env req) as [[code json|q]|e]; simpl;
      try destruct (String.eqb (name e) "AbortError"); auto.
    destruct (Hardened.conclude _) as [[code json]|e]; simpl;
      try destruct (String.eqb (name e) "AbortError"); auto.
  - destruct (Open.prepare env req) as [[code json|q]|e]; simpl; auto.
    destruct (Open.conclude _ _) as [[code json]|e]; simpl; auto.
  - destruct (Open.prepare env req) as [[code json|q]|e]; simpl; auto.
    destruct (Open.conclude _ _) as [[code json]|e]; simpl; auto.
Qed.

(** The limiter is charged for every POST, whatever becomes of the request
    afterwards (missing key, invalid body, upstream failure), and for no
    other request. *)
Theorem limiter_charged_for_every_POST
  (env : environment) (w : world) (m : Hardened.rateLimitMap) (req : request) :
  snd (Hardened.handler env w m req)
  = if String.eqb (method req) "POST"
    then snd (Hardened.checkRateLimit (now w) (Hardened.getClientIP req) m)
    else m.
Proof.
  unfold Hardened.handler.
  destruct (String.eqb (method req) "OPTIONS") eqn:Eo.
  - apply String.eqb_eq in Eo. rewrite Eo. reflexivity.
  - destruct (String.eqb (method req) "POST"); simpl; [|reflexivity].
    destruct (Hardened.checkRateLimit _ _ m) as [[|] m']; simpl; auto.
    destruct (Hardened.prepare env req) as [[code json|q]|e]; simpl;
      try destruct (String.eqb (name e) "AbortError"); auto.
    destruct (Hardened.conclude _) as [[code json]|e]; simpl;
      try destruct (String.eqb (name e) "AbortError"); auto.
Qed.

(** A POST the limiter refuses is answered with 429 and [retryAfter: 60];
    nothing is sent upstream, the key and the body are not looked at, and
    the limiter is left as it was. *)
Theorem rate_limited_429
  (env : environment) (w : world) (m : Hardened.rateLimitMap) (req : request) :
  method req = "POST" ->
  fst (Hardened.checkRateLimit (now w) (Hardened.getClientIP req) m) = false ->
  Hardened.handler env w m req
  = (mkOutcome
       (mkResponse 429 (Hardened.handleCORS env req)
          (Some (VObj [("error", VStr "Rate limit exceeded. Please wait before making more requests.");
                       ("retryAfter", VNum (Finite 60))])))
       [], m).
Proof.
  intros Hm Hr.
  destruct (refusal_inv _ _ _ Hr) as [Hs _].
  unfold Hardened.handler. rewrite Hm. simpl.
  destruct (Hardened.checkRateLimit _ _ m) as [allowed m'].
  simpl in Hr, Hs. subst. reflexivity.
Qed.

Lemma rate_limited_429_witness :
  status (reply (fst (Hardened.handler sample_env sample_world
                        [("127.0.0.1", Hardened.mkClient 30 5000)]
                        (mkRequest "POST" [] None (VObj [("_nkw", VStr "a")])))))
  = 429.
Proof.
  rewrite (rate_limited_429 sample_env sample_world
             [("127.0.0.1", Hardened.mkClient 30 5000)]
             (mkRequest "POST" [] None (VObj [("_nkw", VStr "a")]))
             eq_refl eq_refl).
  reflexivity.
Defined.

(** Without the API key a POST is answered with 500 before the body is
    looked at, so even a [null] body gets this reply, and nothing is sent
    upstream. *)
Theorem missing_key_500
  (env : environment) (w : world) (m : Hardened.rateLimitMap) (req : request) :
  configured env = false -> method req = "POST" ->
  let refusal :=
    Some (error_body "SERPAPI_KEY environment variable not set") in
  (fst (Hardened.checkRateLimit (now w) (Hardened.getClientIP req) m) = true ->
   fst (Hardened.handler env w m req)
   = mkOutcome (mkResponse 500 (Hardened.handleCORS env req) refusal) [])
  /\ Comprehensive.handler env w req
     = mkOutcome (mkResponse 500 Open.cors_headers refusal) []
  /\ Basic.handler env w req
     = mkOutcome (mkResponse 500 Open.cors_headers refusal) [].
Proof.
  intros Hc Hm refusal.
  destruct (Hardened_prepare_cases env req) as [[_ Hh]|[Hc' _]];
    [|congruence].
  destruct (Open_prepare_cases env req) as [[_ Ho]|[Hc' _]];
    [|congruence].
  unfold Hardened.handler. open_handlers. rewrite Hm, Hh, Ho. simpl.
  repeat split.
  destruct (Hardened.checkRateLimit _ _ m) as [allowed m']. simpl.
  intros ->. reflexivity.
Qed.

Lemma missing_key_500_witness :
  status (reply (Comprehensive.handler (mkEnv (Some "") None) sample_world
                   (mkRequest "POST" [] None VNull))) = 500.
Proof.
  rewrite (proj1 (proj2 (missing_key_500 (mkEnv (Some "") None) sample_world []
                           (mkRequest "POST" [] None VNull) eq_refl eq_refl))).
  reflexivity.
Defined.

(** ** Every reply and every upstream call *)

(** The only statuses a handler replies with: 200, 400, 405, 408, 429 and
    500 in the hardened revision, and 200, 400, 405 and 500 in the other
    two, which have neither limiter nor timeout. *)
Theorem reply_statuses
  (env : environment) (w : world) (m : Hardened.rateLimitMap) (req : request) :
  In (status (reply (fst (Hardened.handler env w m req))))
     [200; 400; 405; 408; 429; 500]
  /\ In (status (reply (Comprehensive.handler env w req))) [200; 400; 405; 500]
  /\ In (status (reply (Basic.handler env w req))) [200; 400; 405; 500].
Proof.
  assert (Open_statuses : forall cleanProduct,
    In (status (reply (Open.handler cleanProduct env w req)))
       [200; 400; 405; 500]).
  { intros cleanProduct. unfold Open.handler.
    destruct (String.eqb (method req) "OPTIONS"); [simpl; auto|].
    destruct (String.eqb (method req) "POST"); simpl; [|auto].
    destruct (Open_prepare_cases env req)
      as [[_ ->]|[_ [[e ->]|[->|(key & q & _ & _ & ->)]]]]; simpl; auto.
    destruct (Open.conclude _ _) as [[code json]|e] eqn:E; simpl; auto.
    destruct (Open_conclude_codes _ _ _ _ E) as [-> | ->]; auto. }
  split; [|split; apply Open_statuses].
  unfold Hardened.handler.
  destruct (String.eqb (method req) "OPTIONS"); [simpl; auto|].
  destruct (String.eqb (method req) "POST"); simpl; [|auto].
  destruct (Hardened.checkRateLimit _ _ m) as [[|] m']; simpl; [|auto 10].
  destruct (Hardened_prepare_cases env req)
    as [[_ ->]|[_ [->|[->|[(e & _ & ->)|(key & q & _ & _ & ->)]]]]]; simpl;
    auto 10.
  - destruct (String.eqb (name e) "AbortError"); simpl; auto 10.
  - destruct (Hardened.conclude _) as [[code json]|e] eqn:E; simpl.
    + destruct (Hardened_conclude_codes _ _ _ E) as [-> | ->]; auto.
    + destruct (String.eqb (name e) "AbortError"); simpl; auto 10.
Qed.

(** The upstream is called at most once per request, and only for a POST
    with the API key set whose body is an object with a truthy [_nkw] or
    [category_id] (and, in the hardened revision, within the rate limit).
    The query of the call starts with the three fixed parameters. *)
Theorem upstream_called_only_for_valid_search
  (env : environment) (w : world) (m : Hardened.rateLimitMap) (req : request) :
  let valid_search (q : query) :=
    method req = "POST"
    /\ exists API_KEY fields rest,
         SERPAPI_KEY env = Some API_KEY /\ nonempty API_KEY = true
         /\ body req = VObj fields
         /\ truthy (property fields "_nkw")
            || truthy (property fields "category_id") = true
         /\ q = (fixed_parameters API_KEY ++ rest)%list in
  (forall q, In q (calls (fst (Hardened.handler env w m req))) ->
     valid_search q
     /\ fst (Hardened.checkRateLimit (now w) (Hardened.getClientIP req) m) = true
     /\ calls (fst (Hardened.handler env w m req)) = [q])
  /\ (forall q, In q (calls (Comprehensive.handler env w req)) ->
        valid_search q /\ calls (Comprehensive.handler env w req) = [q])
  /\ (forall q, In q (calls (Basic.handler env w req)) ->
        valid_search q /\ calls (Basic.handler env w req) = [q]).
Proof.
  intros valid_search.
  assert (Hkey : forall key, SERPAPI_KEY env = Some key ->
                             configured env = true -> nonempty key = true).
  { unfold configured. now intros key ->. }
  assert (Open_calls : forall cleanProduct q,
    In q (calls (Open.handler cleanProduct env w req)) ->
    valid_search q /\ calls (Open.handler cleanProduct env w req) = [q]).
  { intros cleanProduct q. unfold Open.handler.
    destruct (String.eqb (method req) "OPTIONS"); [intros []|].
    destruct (String.eqb (method req) "POST") eqn:Ep; simpl; [|intros []].
    apply String.eqb_eq in Ep.
    destruct (Open_prepare_cases env req)
      as [[_ ->]|[Hc [[e ->]|[->|(key & q0 & Hk & _ & Hp)]]]]; simpl;
      try (intros []).
    destruct (Open_validated_body _ _ _ Hp) as (fields & Hf1 & Hf2).
    rewrite Hp.
    assert (Hcalls : forall r : res (Z * value),
              calls (let '(sent, result) :=
                       ([(fixed_parameters key ++ q0)%list], r) in
                     match result with
                     | Ok (code, json) =>
                         mkOutcome (mkResponse code Open.cors_headers (Some json)) sent
                     | Throw error =>
                         mkOutcome
                           (mkResponse 500 Open.cors_headers
                              (Some (error_body ("Failed to search eBay products: "
                                                   ++ message error)))) sent
                     end)
              = [(fixed_parameters key ++ q0)%list]).
    { intros [[code json]|e]; reflexivity. }
    rewrite Hcalls. intros [<-|[]].
    split; [|reflexivity]. split; [assumption|].
    exists key, fields, q0. auto 10. }
  split; [|split; apply Open_calls].
  intros q. unfold Hardened.handler.
  destruct (String.eqb (method req) "OPTIONS"); [intros []|].
  destruct (String.eqb (method req) "POST") eqn:Ep; simpl; [|intros []].
  apply String.eqb_eq in Ep.
  destruct (Hardened.checkRateLimit _ _ m) as [[|] m']; simpl; [|intros []].
  destruct (Hardened_prepare_cases env req)
    as [[_ ->]|[Hc [->|[->|[(e & _ & ->)|(key & q0 & Hk & _ & Hp)]]]]]; simpl;
    try (intros []).
  - destruct (String.eqb (name e) "AbortError"); intros [].
  - destruct (Hardened_validated_body _ _ _ Hp) as (fields & Hf1 & Hf2).
    rewrite Hp.
    destruct (Hardened.conclude _) as [[code json]|e]; simpl;
      try destruct (String.eqb (name e) "AbortError"); simpl;
      (intros [<-|[]]; split; [|split; reflexivity]; split; [assumption|];
       exists key, fields, q0; auto 10).
Qed.

Lemma upstream_called_only_for_valid_search_witness :
  calls (Comprehensive.handler sample_env sample_world
           (mkRequest "POST" [] None (VObj [("_nkw", VStr "jersey")])))
  = [[("engine", "ebay"); ("api_key", "KEY"); ("ebay_domain", "ebay.com");
      ("_nkw", "jersey")]].
Proof.
  refine (proj2 (proj1 (proj2
    (upstream_called_only_for_valid_search sample_env sample_world []
       (mkRequest "POST" [] None (VObj [("_nkw", VStr "jersey")]))))
    [("engine", "ebay"); ("api_key", "KEY"); ("ebay_domain", "ebay.com");
     ("_nkw", "jersey")] _)).
  vm_compute. left. reflexivity.
Defined.

(** ** After the upstream call *)

Lemma lookup_In (k : string) (v : value) (o : object) :
  lookup k o = Some v -> In (k, v) o.
Proof.
  induction o as [|[k' v'] r IH]; simpl; [discriminate|].
  destruct (String.eqb k k') eqn:E.
  - apply String.eqb_eq in E. subst k'. intros [= ->]. now left.
  - intros H. right. now apply IH.
Qed.

Lemma mapM_total_in {A B : Type} (f : A -> res B) (l : list A) :
  (forall x, In x l -> exists y, f x = Ok y) -> exists l', mapM f l = Ok l'.
Proof.
  induction l as [|x r IH]; simpl; intros Hf; [eauto|].
  destruct (Hf x) as [y ->]; [now left|].
  destruct IH as [r' ->]; [intros x' Hx'; apply Hf; now right|].
  simpl. eauto.
Qed.

(** A forwarded value of a body whose values all convert is converted. *)
Lemma forwarded_value_converts (fields : object) (key : string) :
  all_convertible fields = true ->
  forwardable (property fields key) = true ->
  ToString (property fields key) = Ok (display (property fields key)).
Proof.
  unfold all_convertible, property. intros Hall Hf.
  destruct (lookup key fields) as [v|] eqn:L; [|discriminate].
  apply lookup_In in L. rewrite forallb_forall in Hall.
  specialize (Hall _ L). simpl in Hall. rewrite Hf in Hall.
  now apply ToString_convertible.
Qed.

Lemma forwarded_returns (fields : object) :
  all_convertible fields = true ->
  (exists q, Hardened.forwarded (VObj fields) = Ok q)
  /\ (exists q, Open.forwarded (VObj fields) = Ok q).
Proof.
  intros Hall. unfold Hardened.forwarded, Open.forwarded. simpl own_properties.
  split.
  - destruct (mapM_total_in
                (fun key =>
                   if forwardable (property fields key)
                   then bind (ToString (property fields key))
                          (fun text =>
                             if nonempty (filter_chars Hardened.allowed_char text)
                             then Ok [(key, filter_chars Hardened.allowed_char text)]
                             else Ok [])
                   else Ok [])
                (List.map fst fields)) as [chunks ->]; [|simpl; eauto].
    intros key _. destruct (forwardable (property fields key)) eqn:F; [|eauto].
    rewrite (forwarded_value_converts fields key Hall F). simpl.
    destruct (nonempty _); eauto.
  - destruct (mapM_total_in
                (fun key =>
                   if forwardable (property fields key)
                   then bind (ToString (property fields key))
                          (fun text => Ok [(key, text)])
                   else Ok [])
                (List.map fst fields)) as [chunks ->]; [|simpl; eauto].
    intros key _. destruct (forwardable (property fields key)) eqn:F; [|eauto].
    rewrite (forwarded_value_converts fields key Hall F). simpl. eauto.
Qed.

Lemma valid_search_forwarded (env : environment) (req : request) :
  valid_search env req = true ->
  method req = "POST"
  /\ exists API_KEY qh qo,
       Hardened.prepare env req
       = Ok (Forward (fixed_parameters API_KEY ++ qh)%list)
       /\ Open.prepare env req
          = Ok (Forward (fixed_parameters API_KEY ++ qo)%list).
Proof.
  unfold valid_search, configured. intros H.
  apply andb_true_iff in H. destruct H as [H Hb].
  apply andb_true_iff in H. destruct H as [Hm Hk].
  apply String.eqb_eq in Hm. split; [assumption|].
  destruct (SERPAPI_KEY env) as [key|] eqn:K; [|discriminate].
  destruct (body req) as [| | | | | |fields] eqn:B; try discriminate.
  apply andb_true_iff in Hb. destruct Hb as [Hq Hall].
  destruct (forwarded_returns fields Hall) as [[qh Hqh] [qo Hqo]].
  exists key, qh, qo. unfold Hardened.prepare, Open.prepare.
  rewrite K, Hk, B, Hqh, Hqo. simpl.
  fold (property fields "_nkw"). fold (property fields "category_id").
  destruct (truthy (property fields "_nkw")); simpl; [split; reflexivity|].
  simpl in Hq. rewrite Hq. split; reflexivity.
Qed.

(** The reply to a valid search is made of what the [try] region concludes
    from the upstream call. *)
Lemma Hardened_handler_valid_search
      (env : environment) (w : world) (m : Hardened.rateLimitMap) (req : request) :
  valid_search env req = true ->
  fst (Hardened.checkRateLimit (now w) (Hardened.getClientIP req) m) = true ->
  exists q,
    calls (fst (Hardened.handler env w m req)) = [q]
    /\ status (reply (fst (Hardened.handler env w m req)))
       = match Hardened.conclude (fetch w q) with
         | Ok (code, _) => code
         | Throw e => if String.eqb (name e) "AbortError" then 408 else 500
         end
    /\ payload (reply (fst (Hardened.handler env w m req)))
       = match Hardened.conclude (fetch w q) with
         | Ok (_, json) => Some json
         | Throw e =>
             if String.eqb (name e) "AbortError"
             then Some (error_body "Search request timed out. Please try again.")
             else failure (message e)
         end.
Proof.
  intros Hv Ha.
  destruct (valid_search_forwarded _ _ Hv) as (Hm & key & qh & qo & Hp & _).
  exists (fixed_parameters key ++ qh)%list.
  unfold Hardened.handler. rewrite Hm, Hp. simpl.
  destruct (Hardened.checkRateLimit _ _ m) as [allowed m']. simpl in Ha.
  subst allowed. simpl.
  destruct (Hardened.conclude _) as [[code json]|e]; simpl;
    try destruct (String.eqb (name e) "AbortError"); repeat split.
Qed.

Lemma Open_handler_valid_search
      (cleanProduct : value -> res value)
      (env : environment) (w : world) (req : request) :
  valid_search env req = true ->
  exists q,
    calls (Open.handler cleanProduct env w req) = [q]
    /\ status (reply (Open.handler cleanProduct env w req))
       = match Open.conclude cleanProduct (fetch w q) with
         | Ok (code, _) => code
         | Throw e => 500
         end
    /\ payload (reply (Open.handler cleanProduct env w req))
       = match Open.conclude cleanProduct (fetch w q) with
         | Ok (_, json) => Some json
         | Throw e => failure (message e)
         end.
Proof.
  intros Hv.
  destruct (valid_search_forwarded _ _ Hv) as (Hm & key & qh & qo & _ & Hp).
  exists (fixed_parameters key ++ qo)%list.
  unfold Open.handler. rewrite Hm, Hp. simpl.
  destruct (Open.conclude _ _) as [[code json]|e]; simpl; repeat split.
Qed.

Ltac after_upstream w Hv Ha Hu :=
  let q := fresh "q" in
  let Hs := fresh "Hs" in
  let Hp := fresh "Hp" in
  split; [|split];
  [ intros Ha;
    destruct (Hardened_handler_valid_search _ _ _ _ Hv Ha) as (q & _ & Hs & Hp);
    rewrite Hs, Hp, Hu
  | destruct (Open_handler_valid_search Comprehensive.cleanProduct _ w _ Hv)
      as (q & _ & Hs & Hp);
    unfold Comprehensive.handler; rewrite Hs, Hp, Hu
  | destruct (Open_handler_valid_search Basic.cleanProduct _ w _ Hv)
      as (q & _ & Hs & Hp);
    unfold Basic.handler; rewrite Hs, Hp, Hu ].

(** An upstream status that is not 2xx ends a valid search with 500 and the
    status in the message, in every revision. *)
Theorem upstream_status_not_ok_500
  (env : environment) (w : world) (m : Hardened.rateLimitMap) (req : request)
  (code : Z) (statusText : string) (json : res value) :
  valid_search env req = true ->
  upstream w (Responded false code statusText json) ->
  let out := failure (request_failed code statusText) in
  (fst (Hardened.checkRateLimit (now w) (Hardened.getClientIP req) m) = true ->
   status (reply (fst (Hardened.handler env w m req))) = 500
   /\ payload (reply (fst (Hardened.handler env w m req))) = out)
  /\ (status (reply (Comprehensive.handler env w req)) = 500
      /\ payload (reply (Comprehensive.handler env w req)) = out)
  /\ (status (reply (Basic.handler env w req)) = 500
      /\ payload (reply (Basic.handler env w req)) = out).
Proof.
  intros Hv Hu out. unfold upstream in Hu.
  after_upstream w Hv Ha Hu; split; reflexivity.
Qed.

Lemma upstream_status_not_ok_500_witness :
  payload (reply (Basic.handler sample_env
                    (mkWorld 0 (fun _ => Responded false 503 "Service Unavailable"
                                           (Ok VNull)))
                    (mkRequest "POST" [] None (VObj [("_nkw", VStr "a")]))))
  = Some (error_body
            "Failed to search eBay products: SERPAPI request failed: 503 Service Unavailable").
Proof.
  refine (proj2 (proj2 (proj2
    (upstream_status_not_ok_500 sample_env
       (mkWorld 0 (fun _ => Responded false 503 "Service Unavailable" (Ok VNull)))
       [] (mkRequest "POST" [] None (VObj [("_nkw", VStr "a")]))
       503 "Service Unavailable" (Ok VNull) eq_refl _)))).
  intros q. reflexivity.
Defined.

(** When [fetch] rejects, the hardened revision answers 408 for an abort
    (its 10 s timer) and 500 with the message otherwise; the other two
    revisions answer 500 with the message in both cases. *)
Theorem upstream_rejection
  (env : environment) (w : world) (m : Hardened.rateLimitMap) (req : request)
  (e : exn) :
  valid_search env req = true ->
  upstream w (Rejected e) ->
  (fst (Hardened.checkRateLimit (now w) (Hardened.getClientIP req) m) = true ->
   status (reply (fst (Hardened.handler env w m req)))
   = (if String.eqb (name e) "AbortError" then 408 else 500)
   /\ payload (reply (fst (Hardened.handler env w m req)))
      = (if String.eqb (name e) "AbortError"
         then Some (error_body "Search request timed out. Please try again.")
         else failure (message e)))
  /\ (status (reply (Comprehensive.handler env w req)) = 500
      /\ payload (reply (Comprehensive.handler env w req)) = failure (message e))
  /\ (status (reply (Basic.handler env w req)) = 500
      /\ payload (reply (Basic.handler env w req)) = failure (message e)).
Proof.
  intros Hv Hu. unfold upstream in Hu.
  after_upstream w Hv Ha Hu; split; reflexivity.
Qed.

Lemma upstream_rejection_witness :
  status (reply (fst (Hardened.handler sample_env
                        (mkWorld 0 (fun _ => Rejected (mkExn "AbortError" "aborted")))
                        [] (mkRequest "POST" [] None (VObj [("_nkw", VStr "a")])))))
  = 408.
Proof.
  refine (proj1 (proj1
    (upstream_rejection sample_env
       (mkWorld 0 (fun _ => Rejected (mkExn "AbortError" "aborted")))
       [] (mkRequest "POST" [] None (VObj [("_nkw", VStr "a")]))
       (mkExn "AbortError" "aborted") eq_refl _) eq_refl)).
  intros q. reflexivity.
Defined.

(** An upstream reply with a truthy [error] ends the search with 400 and
    the text of the error, even under a 2xx status; nothing of the reply is
    passed on.  When the error does not convert to a string (an object with
    an own [toString] property), the concatenation throws and the reply is
    the 500 of the catch-all. *)
Theorem upstream_error_400
  (env : environment) (w : world) (m : Hardened.rateLimitMap) (req : request)
  (code : Z) (statusText : string) (data error : value) :
  valid_search env req = true ->
  upstream w (Responded true code statusText (Ok data)) ->
  GetV data "error" = Ok error -> truthy error = true ->
  let status' := if convertible error then 400 else 500 in
  let payload' (prefix : string) :=
    if convertible error then Some (error_body (prefix ++ display error))
    else failure "Cannot convert object to primitive value" in
  (fst (Hardened.checkRateLimit (now w) (Hardened.getClientIP req) m) = true ->
   status (reply (fst (Hardened.handler env w m req))) = status'
   /\ payload (reply (fst (Hardened.handler env w m req)))
      = payload' "Search failed: ")
  /\ (status (reply (Comprehensive.handler env w req)) = status'
      /\ payload (reply (Comprehensive.handler env w req))
         = payload' "SERPAPI Error: ")
  /\ (status (reply (Basic.handler env w req)) = status'
      /\ payload (reply (Basic.handler env w req))
         = payload' "SERPAPI Error: ").
Proof.
  intros Hv Hu He Ht status' payload'. unfold upstream in Hu.
  subst status' payload'. unfold ToString.
  after_upstream w Hv Ha Hu; simpl; rewrite He; simpl; rewrite Ht;
    unfold ToString; destruct (convertible error); split; reflexivity.
Qed.

Lemma upstream_error_400_witness :
  payload (reply (Comprehensive.handler sample_env
                    (mkWorld 0 (fun _ => Responded true 200 "OK"
                                  (Ok (VObj [("error", VStr "Invalid API key.")]))))
                    (mkRequest "POST" [] None (VObj [("category_id", VNum (Finite 7))]))))
  = Some (error_body "SERPAPI Error: Invalid API key.").
Proof.
  refine (proj2 (proj1 (proj2
    (upstream_error_400 sample_env
       (mkWorld 0 (fun _ => Responded true 200 "OK"
                              (Ok (VObj [("error", VStr "Invalid API key.")]))))
       [] (mkRequest "POST" [] None (VObj [("category_id", VNum (Finite 7))]))
       200 "OK" (VObj [("error", VStr "Invalid API key.")])
       (VStr "Invalid API key.") eq_refl _ eq_refl eq_refl)))).
  intros q. reflexivity.
Defined.

(** ** The reply to a successful search *)

Lemma mapM_Forall2 {A B : Type} (f : A -> res B) (l : list A) (l' : list B) :
  mapM f l = Ok l' -> Forall2 (fun x y => f x = Ok y) l l'.
Proof.
  revert l'. induction l as [|x r IH]; simpl; intros l' H.
  - injection H as <-. constructor.
  - bind_inversion H. subst l'. constructor; auto.
Qed.

Lemma mapM_total {A B : Type} (f : A -> res B) (l : list A) :
  (forall x, exists y, f x = Ok y) -> exists l', mapM f l = Ok l'.
Proof.
  intros Hf. induction l as [|x r [r' IH]]; simpl; [eauto|].
  destruct (Hf x) as [y ->]. rewrite IH. simpl. eauto.
Qed.

Lemma mapM_Throw {A B : Type} (f : A -> res B) (l : list A) (e : exn) :
  mapM f l = Throw e -> exists x, In x l /\ f x = Throw e.
Proof.
  induction l as [|x r IH]; simpl; intros H; [discriminate|].
  destruct (f x) as [y|e'] eqn:E; simpl in H.
  - destruct (mapM f r) as [ys|e'']; simpl in H; [discriminate|].
    destruct (IH H) as (x' & Hin & Hx). eauto.
  - injection H as ->. eauto.
Qed.

Lemma Hardened_cleanProduct_total (product : value) :
  exists cleaned, Hardened.cleanProduct product = Ok cleaned.
Proof.
  unfold Hardened.cleanProduct.
  destruct (Hardened_cleanPriceField_total
              (property (remove "shipping" (own_properties product)) "price"))
    as [s ->].
  simpl. eauto.
Qed.

(** Writing [organic_results] leaves the other properties of the reply as
    they were. *)
Lemma put_other (data v : value) (k k' : string) :
  k' <> k -> GetV (put data k v) k' = GetV data k'.
Proof.
  intros Hne. destruct data; simpl; auto.
  now rewrite lookup_assign_other.
Qed.

(** A reply without results is passed on as it is.  When [organic_results]
    is there but is no array, the hardened revision still passes the reply
    on, while the other two call [map] on it and end in the catch-all. *)
Theorem reply_without_results
  (env : environment) (w : world) (m : Hardened.rateLimitMap) (req : request)
  (code : Z) (statusText : string) (data error organic_results : value) :
  valid_search env req = true ->
  upstream w (Responded true code statusText (Ok data)) ->
  GetV data "error" = Ok error -> truthy error = false ->
  GetV data "organic_results" = Ok organic_results ->
  isArray organic_results = false ->
  let status' := if truthy organic_results then 500 else 200 in
  let payload' :=
    if truthy organic_results
    then failure "data.organic_results.map is not a function"
    else Some data in
  (fst (Hardened.checkRateLimit (now w) (Hardened.getClientIP req) m) = true ->
   status (reply (fst (Hardened.handler env w m req))) = 200
   /\ payload (reply (fst (Hardened.handler env w m req))) = Some data)
  /\ (status (reply (Comprehensive.handler env w req)) = status'
      /\ payload (reply (Comprehensive.handler env w req)) = payload')
  /\ (status (reply (Basic.handler env w req)) = status'
      /\ payload (reply (Basic.handler env w req)) = payload').
Proof.
  intros Hv Hu He Ht Hr Ha' status' payload'. unfold upstream in Hu.
  subst status' payload'.
  after_upstream w Hv Ha Hu; simpl; rewrite He; simpl; rewrite Ht, Hr; simpl;
    rewrite ?Ha', ?andb_false_r;
    destruct (truthy organic_results); simpl; try (split; reflexivity);
    destruct organic_results; try discriminate; split; reflexivity.
Qed.

Lemma reply_without_results_witness :
  status (reply (Comprehensive.handler sample_env
                   (mkWorld 0 (fun _ => Responded true 200 "OK"
                                 (Ok (VObj [("organic_results", VStr "none")]))))
                   (mkRequest "POST" [] None (VObj [("_nkw", VStr "a")]))))
  = 500
  /\ status (reply (fst (Hardened.handler sample_env
                   (mkWorld 0 (fun _ => Responded true 200 "OK"
                                 (Ok (VObj [("organic_results", VStr "none")]))))
                   [] (mkRequest "POST" [] None (VObj [("_nkw", VStr "a")])))))
     = 200.
Proof.
  assert (Hu : upstream
                 (mkWorld 0 (fun _ => Responded true 200 "OK"
                               (Ok (VObj [("organic_results", VStr "none")]))))
                 (Responded true 200 "OK"
                    (Ok (VObj [("organic_results", VStr "none")])))).
  { intros q. reflexivity. }
  destruct (reply_without_results sample_env _ []
              (mkRequest "POST" [] None (VObj [("_nkw", VStr "a")]))
              200 "OK" _ VUndefined (VStr "none")
              eq_refl Hu eq_refl eq_refl eq_refl eq_refl)
    as (Hh & (Hc & _) & _).
  split; [exact Hc | exact (proj1 (Hh eq_refl))].
Defined.

(** The hardened revision answers a successful search with 200 and the
    upstream reply in which [organic_results] holds the cleaned products,
    one for each product and in the same order; every other property of the
    reply is passed on unchanged. *)
Theorem Hardened_results_cleaned
  (env : environment) (w : world) (m : Hardened.rateLimitMap) (req : request)
  (code : Z) (statusText : string) (data error : value) (items : list value) :
  valid_search env req = true ->
  upstream w (Responded true code statusText (Ok data)) ->
  GetV data "error" = Ok error -> truthy error = false ->
  GetV data "organic_results" = Ok (VArr items) ->
  fst (Hardened.checkRateLimit (now w) (Hardened.getClientIP req) m) = true ->
  exists cleaned json,
    Forall2 (fun product clean => Hardened.cleanProduct product = Ok clean)
            items cleaned
    /\ status (reply (fst (Hardened.handler env w m req))) = 200
    /\ payload (reply (fst (Hardened.handler env w m req))) = Some json
    /\ GetV json "organic_results" = Ok (VArr cleaned)
    /\ forall k, k <> "organic_results" -> GetV json k = GetV data k.
Proof.
  intros Hv Hu He Ht Hr Ha. unfold upstream in Hu.
  destruct (Hardened_handler_valid_search _ _ _ _ Hv Ha) as (q & _ & Hs & Hp).
  rewrite Hs, Hp, Hu. simpl. rewrite He. simpl. rewrite Ht, Hr. simpl.
  destruct (mapM_total Hardened.cleanProduct items Hardened_cleanProduct_total)
    as [cleaned Hc].
  rewrite Hc. simpl.
  exists cleaned, (put data "organic_results" (VArr cleaned)).
  split; [now apply mapM_Forall2|]. repeat split.
  - destruct (named_property_of_object _ _ "organic_results"
                eq_refl eq_refl Hr eq_refl) as [fields ->].
    simpl. now rewrite lookup_assign_same.
  - intros k Hk. now apply put_other.
Qed.

Lemma Hardened_results_cleaned_witness :
  let data :=
    VObj [("organic_results",
           VArr [VObj [("title", VStr "A"); ("shipping", VNull)]])] in
  exists cleaned json,
    Forall2 (fun product clean => Hardened.cleanProduct product = Ok clean)
            [VObj [("title", VStr "A"); ("shipping", VNull)]] cleaned
    /\ status (reply (fst (Hardened.handler sample_env (answering data) []
                             sample_search))) = 200
    /\ payload (reply (fst (Hardened.handler sample_env (answering data) []
                              sample_search))) = Some json
    /\ GetV json "organic_results" = Ok (VArr cleaned)
    /\ forall k, k <> "organic_results" -> GetV json k = GetV data k.
Proof.
  intros data.
  refine (Hardened_results_cleaned sample_env (answering data) [] sample_search
            200 "OK" data VUndefined
            [VObj [("title", VStr "A"); ("shipping", VNull)]]
            eq_refl _ eq_refl eq_refl eq_refl eq_refl).
  intros q. reflexivity.
Defined.

(** In the other two revisions the products are cleaned in the same way
    when the clean-up of every product returns; one product whose clean-up
    throws ends the whole search in the catch-all with 500, and no product
    is passed on. *)
Theorem Open_results_cleaned_or_failed
  (env : environment) (w : world) (req : request)
  (code : Z) (statusText : string) (data error : value) (items : list value) :
  valid_search env req = true ->
  upstream w (Responded true code statusText (Ok data)) ->
  GetV data "error" = Ok error -> truthy error = false ->
  GetV data "organic_results" = Ok (VArr items) ->
  let answer (cleanProduct : value -> res value) (out : outcome) :=
    match mapM cleanProduct items with
    | Ok cleaned =>
        status (reply out) = 200
        /\ payload (reply out) = Some (put data "organic_results" (VArr cleaned))
        /\ Forall2 (fun product clean => cleanProduct product = Ok clean)
                   items cleaned
    | Throw e =>
        status (reply out) = 500
        /\ payload (reply out) = failure (message e)
        /\ exists product, In product items /\ cleanProduct product = Throw e
    end in
  answer Comprehensive.cleanProduct (Comprehensive.handler env w req)
  /\ answer Basic.cleanProduct (Basic.handler env w req).
Proof.
  intros Hv Hu He Ht Hr answer. unfold upstream in Hu.
  assert (H : forall cleanProduct,
             answer cleanProduct (Open.handler cleanProduct env w req)).
  { intros cleanProduct. unfold answer.
    destruct (Open_handler_valid_search cleanProduct _ w _ Hv)
      as (q & _ & Hs & Hp).
    rewrite Hs, Hp, Hu. simpl. rewrite He. simpl. rewrite Ht, Hr. simpl.
    destruct (mapM cleanProduct items) as [cleaned|e] eqn:E; simpl.
    - repeat split. now apply mapM_Forall2.
    - repeat split. now apply mapM_Throw. }
  split; apply H.
Qed.

Lemma Open_results_cleaned_or_failed_witness :
  let items := [VObj [("price", VObj [("extracted", VStr "5")])]] in
  status (reply (Basic.handler sample_env
                   (answering (VObj [("organic_results", VArr items)]))
                   sample_search)) = 500.
Proof.
  intros items.
  refine (proj1 (proj2
    (Open_results_cleaned_or_failed sample_env
       (answering (VObj [("organic_results", VArr items)])) sample_search
       200 "OK" (VObj [("organic_results", VArr items)]) VUndefined items
       eq_refl _ eq_refl eq_refl eq_refl))).
  intros q. reflexivity.
Defined.

(** ** Prices in the cleaned products *)

Lemma Hardened_cleanPriceField_nonempty (priceData : value) :
  exists s, Hardened.cleanPriceField priceData = Ok (VStr s)
            /\ nonempty s = true.
Proof.
  assert (Hobj : forall o : object,
    exists s,
      (raw <- Ok (property o "raw") ;;
       if truthy raw && is_string raw then Ok raw
       else
         extracted_value <- Ok (property o "extracted_value") ;;
         if is_number extracted_value then
           t <- call_toFixed extracted_value "priceData.extracted_value" ;;
           text <- ToString t ;;
           Ok (VStr ("$" ++ text))
         else Ok Price_not_available) = Ok (VStr s)
      /\ nonempty s = true).
  { intros o. simpl.
    destruct (property o "raw") as [| |b|x|s|l|f] eqn:R;
      cbv delta [is_string]; simpl; rewrite ?andb_false_r;
      try (destruct (nonempty s) eqn:N; simpl; [exists s; auto|]);
      (destruct (property o "extracted_value") as [| |b'|x'|s'|l'|f'];
       cbv delta [is_number]; simpl; eexists; split; reflexivity). }
  split_value priceData; unfold Hardened.cleanPriceField;
    cbv delta [is_string is_object]; simpl;
    try (eexists; split; reflexivity).
  - destruct b; eexists; split; reflexivity.
  - destruct (truthy (VNum x)); eexists; split; reflexivity.
  - destruct (nonempty (trim s)) eqn:N; simpl; [eauto|].
    rewrite andb_false_r. eexists; split; reflexivity.
  - apply (Hobj (indexed 0 items)).
  - apply (Hobj fields).
Qed.

(** Every product cleaned by the hardened revision has a [price], and it
    is a non-empty string, also when the upstream product had no price or
    one that cannot be read. *)
Theorem Hardened_price_always_text (product : value) :
  exists o s,
    Hardened.cleanProduct product = Ok (VObj o)
    /\ lookup "price" o = Some (VStr s) /\ nonempty s = true.
Proof.
  unfold Hardened.cleanProduct.
  destruct (Hardened_cleanPriceField_nonempty
              (property (remove "shipping" (own_properties product)) "price"))
    as (s & -> & Hs).
  simpl. do 2 eexists. split; [reflexivity|].
  split; [apply lookup_assign_same | exact Hs].
Qed.

Lemma first_valid_not_blank (attempts : list value) (out : value) :
  Comprehensive.first_valid attempts = Ok out ->
  exists s, out = VStr s /\ String.eqb (trim s) "" = false.
Proof.
  induction attempts as [|attempt rest IH];
    unfold Comprehensive.first_valid; fold Comprehensive.first_valid.
  - intros [= <-]. eexists. split; reflexivity.
  - split_value attempt; cbv delta [is_string]; simpl;
      rewrite ?andb_false_r; simpl; auto.
    destruct (nonempty s); simpl; auto.
    destruct (String.eqb (trim s) "") eqn:E; simpl; auto.
    intros [= <-]. eauto.
Qed.

(** What the comprehensive [cleanPriceField] makes of a value that is not
    a string is never blank: it is a candidate with something other than
    white space in it, or the fallback text.  (A string is returned as it
    is, blank or not.) *)
Theorem Comprehensive_price_not_blank (priceData out : value) :
  is_string priceData = false ->
  Comprehensive.cleanPriceField priceData = Ok out ->
  exists s, out = VStr s /\ String.eqb (trim s) "" = false.
Proof.
  unfold Comprehensive.cleanPriceField. intros -> H.
  destruct (negb (truthy priceData) || negb (is_object priceData)).
  - injection H as <-. eexists. split; reflexivity.
  - bind_inversion H. now apply first_valid_not_blank in H.
Qed.

Lemma Comprehensive_price_not_blank_witness :
  exists s, VStr "$25.99" = VStr s /\ String.eqb (trim s) "" = false.
Proof.
  exact (Comprehensive_price_not_blank
           (VObj [("raw", VStr "  "); ("formatted", VStr "$25.99")])
           (VStr "$25.99") eq_refl eq_refl).
Defined.

Lemma trim_dollar (t : string) : String.eqb (trim (String "$" t)) "" = false.
Proof.
  unfold trim. simpl. destruct (trimEnd t); reflexivity.
Qed.

Lemma first_valid_dollar (before after : list value) (t : string) :
  Forall (fun v => truthy v = false) before ->
  Comprehensive.first_valid (before ++ VStr (String "$" t) :: after)%list
  = Ok (VStr (String "$" t)).
Proof.
  induction 1 as [|v r Hv _ IH]; simpl;
    unfold Comprehensive.first_valid; fold Comprehensive.first_valid.
  - cbv delta [is_string]. simpl. now rewrite trim_dollar.
  - rewrite Hv. simpl. exact IH.
Qed.

(** A price given as a number under [extracted_value]: the hardened
    revision formats every number, zero included; the comprehensive one
    takes a zero (or NaN) for a missing amount and answers with the
    fallback text. *)
Theorem price_from_extracted_value (x : number) :
  Hardened.cleanPriceField (VObj [("extracted_value", VNum x)])
  = Ok (VStr ("$" ++ toFixed2 x))
  /\ Comprehensive.cleanPriceField (VObj [("extracted_value", VNum x)])
     = Ok (if truthy (VNum x) then VStr ("$" ++ toFixed2 x)
           else Price_not_available).
Proof.
  split; [reflexivity|].
  unfold Comprehensive.cleanPriceField, Comprehensive.priced.
  cbv delta [is_string is_object]. simpl.
  destruct (truthy (VNum x)); simpl; [|reflexivity].
  apply (first_valid_dollar [VUndefined; VUndefined]). repeat constructor.
Qed.

(** A price given as a truthy number under [extracted], in a product with
    whatever other properties: the basic revision writes it with two
    decimals and no currency sign, the comprehensive one with a leading
    dollar sign, and the hardened one, which does not read [extracted],
    answers with the fallback text. *)
Theorem price_from_extracted (x : number) (others : object) :
  truthy (VNum x) = true ->
  let product := VObj (("price", VObj [("extracted", VNum x)]) :: others) in
  let cleaned (price : string) :=
    Ok (VObj (("price", VStr price) :: remove "shipping" others)) in
  Basic.cleanProduct product = cleaned (toFixed2 x)
  /\ Comprehensive.cleanProduct product = cleaned ("$" ++ toFixed2 x)
  /\ Hardened.cleanProduct product = cleaned "Price not available".
Proof.
  intros Ht product cleaned. subst product cleaned.
  unfold Basic.cleanProduct, Comprehensive.cleanProduct, Hardened.cleanProduct,
    Comprehensive.cleanPriceField, Comprehensive.priced, Hardened.cleanPriceField.
  cbv delta [is_string is_object is_number property]. simpl.
  rewrite Ht. simpl. repeat split.
  pose proof (first_valid_dollar [VUndefined; VUndefined; VNull]
                [VNull; VNull; VNull] (toFixed2 x)) as E.
  simpl app in E. rewrite E by repeat constructor.
  reflexivity.
Qed.

Lemma price_from_extracted_witness :
  Basic.cleanProduct
    (VObj [("price", VObj [("extracted", VNum (Finite 25.99))]);
           ("title", VStr "A")])
  = Ok (VObj [("price", VStr "25.99"); ("title", VStr "A")]).
Proof.
  exact (proj1 (price_from_extracted (Finite 25.99) [("title", VStr "A")]
                  eq_refl)).
Defined.

(** The basic revision touches the price only when it is a non-null
    object: any other price (a string, a number, none at all) is passed on
    as it is, and no [price] is added to a product that has none. *)
Theorem Basic_price_left_alone (product : value) :
  let price := property (own_properties product) "price" in
  truthy price && is_object price = false ->
  Basic.cleanProduct product
  = Ok (VObj (remove "shipping" (own_properties product)))
  /\ lookup "price" (remove "shipping" (own_properties product))
     = lookup "price" (own_properties product).
Proof.
  intros price H. unfold Basic.cleanProduct.
  assert (E : property (remove "shipping" (own_properties product)) "price"
              = price).
  { unfold property, price. now rewrite lookup_remove_other by discriminate. }
  rewrite E, H. split; [reflexivity|].
  now rewrite lookup_remove_other by discriminate.
Qed.

Lemma Basic_price_left_alone_witness :
  Basic.cleanProduct (VObj [("title", VStr "A"); ("shipping", VNull)])
  = Ok (VObj [("title", VStr "A")]).
Proof.
  exact (proj1 (Basic_price_left_alone
                  (VObj [("title", VStr "A"); ("shipping", VNull)]) eq_refl)).
Defined.

(** ** The window of the limiter, for any number of calls *)

Lemma run_window (ip : string) (times : list Z) :
  forall (m : Hardened.rateLimitMap) (n reset : Z),
    Hardened.map_get ip m = Some (Hardened.mkClient n reset) ->
    0 <= n <= Hardened.RATE_LIMIT_MAX_REQUESTS ->
    Forall (fun t => t <= reset) times ->
    let left := Z.to_nat (Hardened.RATE_LIMIT_MAX_REQUESTS - n) in
    fst (run ip times m)
    = (repeat true (Nat.min (List.length times) left)
       ++ repeat false (List.length times - left))%list.
Proof.
  induction times as [|t later IH]; intros m n reset Hget Hn Hin left;
    [reflexivity|].
  inversion Hin as [|? ? Ht Hlater]; subst.
  destruct (Z.eq_dec n Hardened.RATE_LIMIT_MAX_REQUESTS) as [E|E].
  - (* at the maximum: refused, nothing changes *)
    assert (Hleft : left = 0%nat) by (unfold left; rewrite E; reflexivity).
    rewrite Hleft. simpl run.
    rewrite (Limiter.check_refused t ip m n reset Hget Ht) by lia.
    specialize (IH m n reset Hget Hn Hlater). fold left in IH.
    rewrite Hleft in IH.
    destruct (run ip later m) as [rest m']. simpl in *.
    rewrite IH. rewrite Nat.min_0_r, Nat.sub_0_r. reflexivity.
  - (* below the maximum: allowed and counted *)
    destruct (Limiter.check_counted t ip m n reset Hget Ht) as [Ha Hm]; [lia|].
    assert (Hleft : left
                    = S (Z.to_nat (Hardened.RATE_LIMIT_MAX_REQUESTS - (n + 1)))).
    { unfold left. lia. }
    rewrite Hleft. simpl run.
    destruct (Hardened.checkRateLimit t ip m) as [allowed m1].
    simpl in Ha, Hm. subst allowed.
    assert (Hn' : 0 <= n + 1 <= Hardened.RATE_LIMIT_MAX_REQUESTS) by lia.
    specialize (IH m1 (n + 1) reset Hm Hn' Hlater).
    destruct (run ip later m1) as [rest m']. simpl in *.
    rewrite IH. reflexivity.
Qed.

(** The quota of a window, for any number of calls: of the calls of one
    client inside the window its first call opens, the first 30 are allowed
    and every later one is refused. *)
Theorem window_quota
  (ip : string) (m : Hardened.rateLimitMap) (t1 : Z) (times : list Z) :
  starts_window t1 ip m = true ->
  Forall (fun t => t <= t1 + Hardened.RATE_LIMIT_WINDOW_MS) times ->
  let n := S (List.length times) in
  fst (run ip (t1 :: times) m)
  = (repeat true (Nat.min n 30) ++ repeat false (n - 30))%list.
Proof.
  intros Hstart Hin n.
  destruct (Limiter.check_opening t1 ip m Hstart) as [Ha Hm].
  simpl run. destruct (Hardened.checkRateLimit t1 ip m) as [allowed m1].
  simpl in Ha, Hm. subst allowed.
  pose proof (run_window ip times m1 1 _ Hm) as H.
  unfold Hardened.RATE_LIMIT_MAX_REQUESTS in H.
  specialize (H ltac:(lia) Hin). cbv zeta in H.
  change (Z.to_nat (30 - 1)) with 29%nat in H.
  destruct (run ip times m1) as [rest m']. simpl in H. subst rest n.
  reflexivity.
Qed.

Lemma window_quota_witness :
  fst (run "203.0.113.7" (0 :: repeat 10 31) [])
  = (repeat true 30 ++ [false; false])%list.
Proof.
  refine (window_quota "203.0.113.7" [] 0 (repeat 10 31) eq_refl _).
  apply Forall_forall. intros t Ht. apply repeat_spec in Ht. subst t.
  vm_compute. discriminate.
Defined.

(** ** The map of the limiter *)

Lemma map_set_map_set (k : string) (d0 d1 : Hardened.clientData)
      (m : Hardened.rateLimitMap) :
  Hardened.map_set k d1 (Hardened.map_set k d0 m) = Hardened.map_set k d1 m.
Proof.
  induction m as [|[k' d'] r IH]; simpl.
  - now rewrite String.eqb_refl.
  - destruct (String.eqb k k') eqn:E; simpl.
    + now rewrite String.eqb_refl.
    + now rewrite E, IH.
Qed.

Lemma map_get_set_other (k k' : string) (d : Hardened.clientData)
      (m : Hardened.rateLimitMap) :
  k' <> k -> Hardened.map_get k' (Hardened.map_set k d m) = Hardened.map_get k' m.
Proof.
  intros Hne. apply String.eqb_neq in Hne.
  induction m as [|[k0 d0] r IH]; simpl.
  - now rewrite Hne.
  - destruct (String.eqb k k0) eqn:E; simpl.
    + apply String.eqb_eq in E. subst k0. now rewrite Hne.
    + now rewrite IH.
Qed.

Lemma keys_map_set (k x : string) (d : Hardened.clientData)
      (m : Hardened.rateLimitMap) :
  In x (List.map fst (Hardened.map_set k d m)) ->
  x = k \/ In x (List.map fst m).
Proof.
  induction m as [|[k' d'] r IH]; simpl.
  - intros [<-|[]]. now left.
  - destruct (String.eqb k k') eqn:E; simpl.
    + apply String.eqb_eq in E. subst k'. tauto.
    + intros [<-|H]; [tauto|]. destruct (IH H); tauto.
Qed.

Lemma NoDup_map_set (k : string) (d : Hardened.clientData)
      (m : Hardened.rateLimitMap) :
  NoDup (List.map fst m) -> NoDup (List.map fst (Hardened.map_set k d m)).
Proof.
  induction m as [|[k' d'] r IH]; simpl; intros Hnd.
  - constructor; [intros []|constructor].
  - inversion Hnd as [|? ? Hnotin Hnd']; subst.
    destruct (String.eqb k k') eqn:E; simpl.
    + apply String.eqb_eq in E. subst k'. now constructor.
    + constructor; [|now apply IH].
      intros Hin. apply keys_map_set in Hin. destruct Hin as [->|Hin]; auto.
      rewrite String.eqb_refl in E. discriminate.
Qed.

Lemma NoDup_keys_filter (p : string * Hardened.clientData -> bool)
      (m : Hardened.rateLimitMap) :
  NoDup (List.map fst m) -> NoDup (List.map fst (filter p m)).
Proof.
  induction m as [|[k d] r IH]; simpl; intros Hnd; [constructor|].
  inversion Hnd as [|? ? Hnotin Hnd']; subst.
  destruct (p (k, d)); simpl; auto.
  constructor; auto.
  intros Hin. apply Hnotin. apply in_map_iff in Hin.
  destruct Hin as (e & <- & He). apply filter_In in He.
  apply in_map, He.
Qed.

Lemma map_get_absent (k : string) (m : Hardened.rateLimitMap) :
  ~ In k (List.map fst m) -> Hardened.map_get k m = None.
Proof.
  induction m as [|[k' d'] r IH]; simpl; intros Hn; auto.
  destruct (String.eqb k k') eqn:E.
  - apply String.eqb_eq in E. subst k'. tauto.
  - apply IH. tauto.
Qed.

Lemma map_get_filter_NoDup (p : string * Hardened.clientData -> bool)
      (k : string) (m : Hardened.rateLimitMap) :
  NoDup (List.map fst m) ->
  Hardened.map_get k (filter p m)
  = match Hardened.map_get k m with
    | Some d => if p (k, d) then Some d else None
    | None => None
    end.
Proof.
  induction m as [|[k' d'] r IH]; simpl; intros Hnd; auto.
  inversion Hnd as [|? ? Hnotin Hnd']; subst.
  destruct (String.eqb k k') eqn:E.
  - apply String.eqb_eq in E. subst k'.
    destruct (p (k, d')); simpl.
    + now rewrite String.eqb_refl.
    + rewrite IH by assumption. now rewrite (map_get_absent k r Hnotin).
  - destruct (p (k', d')); simpl; [rewrite E|]; now apply IH.
Qed.

Lemma Forall_map_set (P : Hardened.clientData -> Prop) (k : string)
      (d : Hardened.clientData) (m : Hardened.rateLimitMap) :
  P d -> Forall (fun entry => P (snd entry)) m ->
  Forall (fun entry => P (snd entry)) (Hardened.map_set k d m).
Proof.
  intros Hd. induction m as [|[k' d'] r IH]; simpl; intros Hm.
  - constructor; auto.
  - inversion Hm; subst.
    destruct (String.eqb k k'); constructor; auto.
Qed.

Lemma Forall_filter_entries {A : Type} (P : A -> Prop) (p : A -> bool) (l : list A) :
  Forall P l -> Forall P (filter p l).
Proof.
  intros H. rewrite Forall_forall in *. intros x Hx.
  apply filter_In in Hx. now apply H.
Qed.

(** The map after a call, in the three ways a call can go. *)
Lemma checkRateLimit_map (now : Z) (ip : string) (m : Hardened.rateLimitMap) :
  snd (Hardened.checkRateLimit now ip m) = m
  \/ exists d,
       (d = Hardened.mkClient 1 (now + Hardened.RATE_LIMIT_WINDOW_MS)
        \/ exists d0, Hardened.map_get ip m = Some d0
                      /\ d = Hardened.mkClient (Hardened.requests d0 + 1)
                                               (Hardened.resetTime d0))
       /\ (snd (Hardened.checkRateLimit now ip m) = Hardened.map_set ip d m
           \/ snd (Hardened.checkRateLimit now ip m)
              = filter (fun entry =>
                          negb (Hardened.resetTime (snd entry)
                                <? now - Hardened.RATE_LIMIT_WINDOW_MS))
                       (Hardened.map_set ip d m)).
Proof.
  unfold Hardened.checkRateLimit.
  destruct (Hardened.map_get ip m) as [d0|] eqn:G.
  - destruct (now >? Hardened.resetTime d0); simpl.
    + right. eexists. split; [left; reflexivity|].
      rewrite map_set_map_set.
      destruct (Z.of_nat _ >? 1000); auto.
    + destruct (Hardened.requests d0 >=? Hardened.RATE_LIMIT_MAX_REQUESTS);
        simpl; [left; reflexivity|].
      right. eexists. split; [right; eauto|].
      destruct (Z.of_nat _ >? 1000); auto.
  - simpl. right. exists (Hardened.mkClient 1 (now + Hardened.RATE_LIMIT_WINDOW_MS)).
    split; [left; reflexivity|].
    destruct (now >? now + Hardened.RATE_LIMIT_WINDOW_MS); simpl;
      destruct (Z.of_nat _ >? 1000); auto.
Qed.

Lemma reachable_keys_NoDup (m : Hardened.rateLimitMap) :
  reachable m -> NoDup (List.map fst m).
Proof.
  induction 1 as [|m now ip _ IH]; [constructor|].
  destruct (checkRateLimit_map now ip m) as [-> | (d & _ & [-> | ->])]; auto.
  - now apply NoDup_map_set.
  - now apply NoDup_keys_filter, NoDup_map_set.
Qed.

Lemma reachable_counted (m : Hardened.rateLimitMap) :
  reachable m ->
  Forall (fun entry => 1 <= Hardened.requests (snd entry)) m.
Proof.
  induction 1 as [|m now ip _ IH]; [constructor|].
  destruct (checkRateLimit_map now ip m) as [-> | (d & Hd & Hm)]; auto.
  assert (H1 : 1 <= Hardened.requests d).
  { destruct Hd as [-> | (d0 & G & ->)]; simpl; [lia|].
    apply Limiter.map_get_In in G. rewrite Forall_forall in IH.
    specialize (IH _ G). simpl in IH. lia. }
  pose proof (Forall_map_set (fun d => 1 <= Hardened.requests d) ip d m H1 IH)
    as Hset.
  destruct Hm as [-> | ->]; auto.
  now apply Forall_filter_entries.
Qed.

(** In every state reached from the empty map, each client has one record
    only, which is the one [rateLimitMap.get] returns, and every stored
    counter is at least 1: a record is stored only with a counted call. *)
Theorem reachable_map_one_record_per_client
  (m : Hardened.rateLimitMap) (ip : string) (d : Hardened.clientData) :
  reachable m -> In (ip, d) m ->
  Hardened.map_get ip m = Some d
  /\ (forall d', In (ip, d') m -> d' = d)
  /\ 1 <= Hardened.requests d.
Proof.
  intros Hr Hin.
  pose proof (reachable_keys_NoDup m Hr) as Hnd.
  pose proof (reachable_counted m Hr) as Hc.
  assert (Hget : forall d', In (ip, d') m -> Hardened.map_get ip m = Some d').
  { clear Hin Hc Hr. induction m as [|[k0 d0] r IH]; simpl; intros d' Hin;
      [contradiction|].
    inversion Hnd as [|? ? Hnotin Hnd']; subst.
    destruct Hin as [[= -> ->] | Hin].
    - now rewrite String.eqb_refl.
    - destruct (String.eqb ip k0) eqn:E; [|now apply IH].
      apply String.eqb_eq in E. subst k0. exfalso. apply Hnotin.
      now apply (in_map fst) in Hin. }
  split; [now apply Hget|]. split.
  - intros d' Hin'. apply Hget in Hin, Hin'. congruence.
  - rewrite Forall_forall in Hc. exact (Hc _ Hin).
Qed.

Lemma reachable_map_one_record_per_client_witness :
  1 <= Hardened.requests (Hardened.mkClient 2 60005).
Proof.
  refine (proj2 (proj2 (reachable_map_one_record_per_client
     (snd (Hardened.checkRateLimit 9 "203.0.113.7"
             (snd (Hardened.checkRateLimit 5 "203.0.113.7" []))))
     "203.0.113.7" (Hardened.mkClient 2 60005) _ _))).
  - apply reachable_call, reachable_call, reachable_empty.
  - vm_compute. left. reflexivity.
Defined.

(** A call of one client leaves the record of every other client as it
    is, unless the sweep removes it, which it does only when that record's
    window has been over for more than a window's length. *)
Theorem other_clients_untouched
  (m : Hardened.rateLimitMap) (now : Z) (ip other : string) :
  reachable m -> other <> ip ->
  Hardened.map_get other (snd (Hardened.checkRateLimit now ip m))
  = Hardened.map_get other m
  \/ (Hardened.map_get other (snd (Hardened.checkRateLimit now ip m)) = None
      /\ exists d, Hardened.map_get other m = Some d
                   /\ Hardened.resetTime d < now - Hardened.RATE_LIMIT_WINDOW_MS).
Proof.
  intros Hr Hne. pose proof (reachable_keys_NoDup m Hr) as Hnd.
  destruct (checkRateLimit_map now ip m) as [-> | (d & _ & [-> | ->])].
  - now left.
  - left. now apply map_get_set_other.
  - rewrite map_get_filter_NoDup by now apply NoDup_map_set.
    rewrite map_get_set_other by assumption.
    destruct (Hardened.map_get other m) as [d'|]; [|now left].
    simpl. destruct (Hardened.resetTime d' <? _) eqn:E; simpl; [|now left].
    right. split; [reflexivity|]. exists d'. split; [reflexivity|].
    now apply Z.ltb_lt.
Qed.

Lemma other_clients_untouched_witness :
  Hardened.map_get "198.51.100.2"
    (snd (Hardened.checkRateLimit 9 "203.0.113.7"
            (snd (Hardened.checkRateLimit 5 "198.51.100.2" []))))
  = Some (Hardened.mkClient 1 60005).
Proof.
  assert (Hr : reachable (snd (Hardened.checkRateLimit 5 "198.51.100.2" [])))
    by apply reachable_call, reachable_empty.
  assert (Hne : "198.51.100.2" <> "203.0.113.7") by discriminate.
  destruct (other_clients_untouched _ 9 "203.0.113.7" "198.51.100.2" Hr Hne)
    as [H | [H _]].
  - rewrite H. reflexivity.
  - vm_compute in H. discriminate H.
Defined.

(** ** CORS and the client key *)

Lemma existsb_eqb_In (x : string) (l : list string) :
  existsb (String.eqb x) l = true <-> In x l.
Proof.
  rewrite existsb_exists. split.
  - intros (y & Hin & E). apply String.eqb_eq in E. now subst.
  - intros Hin. exists x. split; [assumption | apply String.eqb_refl].
Qed.

(** The origin of the request is echoed in [Access-Control-Allow-Origin]
    exactly when it is on the allow-list; no other value is ever sent in
    that header.  The list is the one of [ALLOWED_ORIGINS] when that is set
    (split at commas, each entry trimmed), which then replaces the four
    default origins. *)
Theorem CORS_origin_echoed_iff_allowed
  (env : environment) (req : request) (origin : string) :
  (header "Access-Control-Allow-Origin" (Hardened.handleCORS env req)
   = Some origin
   <-> header "origin" (headers req) = Some origin
       /\ In origin (Hardened.getAllowedOrigins env))
  /\ (In origin (Hardened.getAllowedOrigins env)
      <-> match ALLOWED_ORIGINS env with
          | Some envOrigins =>
              if nonempty envOrigins
              then exists entry,
                     In entry (split_on "," envOrigins) /\ origin = trim entry
              else In origin ["https://www.puckgenius.com"; "https://puckgenius.com";
                              "http://localhost:3000"; "http://127.0.0.1:3000"]
          | None =>
              In origin ["https://www.puckgenius.com"; "https://puckgenius.com";
                         "http://localhost:3000"; "http://127.0.0.1:3000"]
          end).
Proof.
  split.
  - unfold Hardened.handleCORS.
    destruct (header "origin" (headers req)) as [o|].
    + destruct (existsb (String.eqb o) (Hardened.getAllowedOrigins env)) eqn:E;
        simpl.
      * apply existsb_eqb_In in E. split.
        -- intros [= <-]. auto.
        -- intros [[= <-] _]. reflexivity.
      * split; [discriminate|].
        intros [[= <-] Hin]. apply existsb_eqb_In in Hin. congruence.
    + simpl. split; [discriminate | intros [H _]; discriminate].
  - unfold Hardened.getAllowedOrigins.
    destruct (ALLOWED_ORIGINS env) as [e|]; [|reflexivity].
    destruct (nonempty e); [|reflexivity].
    rewrite in_map_iff. split.
    + intros (entry & <- & Hin). eauto.
    + intros (entry & Hin & ->). eauto.
Qed.

Lemma split_on_hd_no_separator (sep : ascii) (s : string) :
  all_chars (fun c => negb (Ascii.eqb c sep)) (hd EmptyString (split_on sep s))
  = true.
Proof.
  induction s as [|c r IH]; simpl; auto.
  destruct (Ascii.eqb c sep) eqn:E; simpl; auto.
  destruct (split_on sep r) as [|h t]; simpl in *; rewrite E; simpl; auto.
Qed.

(** The key under which a client is counted is never empty: it is the text
    before the first comma of [X-Forwarded-For] when that is not empty (and
    then holds no comma), else a non-empty [X-Real-IP], else a non-empty
    remote address, else 127.0.0.1. *)
Theorem client_key_never_empty (req : request) :
  nonempty (Hardened.getClientIP req) = true
  /\ (forall h,
        header "x-forwarded-for" (headers req) = Some h ->
        nonempty (hd EmptyString (split_on "," h)) = true ->
        Hardened.getClientIP req = hd EmptyString (split_on "," h)
        /\ all_chars (fun c => negb (Ascii.eqb c ","))
                     (Hardened.getClientIP req) = true)
  /\ (Hardened.getClientIP req = "127.0.0.1"
      \/ (exists h, header "x-forwarded-for" (headers req) = Some h
                    /\ Hardened.getClientIP req = hd EmptyString (split_on "," h))
      \/ header "x-real-ip" (headers req) = Some (Hardened.getClientIP req)
      \/ remoteAddress req = Some (Hardened.getClientIP req)).
Proof.
  unfold Hardened.getClientIP, Hardened.or_else.
  destruct (header "x-forwarded-for" (headers req)) as [h|].
  - destruct (nonempty (hd EmptyString (split_on "," h))) eqn:N.
    + split; [exact N|]. split; [|right; left; eauto].
      intros h' [= <-] _. split; [reflexivity|].
      apply split_on_hd_no_separator.
    + split; [|split; [intros h' [= <-]; congruence|]];
      destruct (header "x-real-ip" (headers req)) as [r|];
        try destruct (nonempty r) eqn:Nr; auto;
      destruct (remoteAddress req) as [a|];
        try destruct (nonempty a) eqn:Na; auto.
  - split; [|split; [discriminate|]];
    destruct (header "x-real-ip" (headers req)) as [r|];
      try destruct (nonempty r) eqn:Nr; auto;
    destruct (remoteAddress req) as [a|];
      try destruct (nonempty a) eqn:Na; auto.
Qed.

Lemma client_key_never_empty_witness :
  Hardened.getClientIP
    (mkRequest "POST" [("x-forwarded-for", "203.0.113.7, 10.0.0.1")] None VNull)
  = "203.0.113.7".
Proof.
  exact (proj1 (proj1 (proj2 (client_key_never_empty
    (mkRequest "POST" [("x-forwarded-for", "203.0.113.7, 10.0.0.1")] None VNull)))
    "203.0.113.7, 10.0.0.1" eq_refl eq_refl)).
Defined.

Lemma CORS_origin_echoed_iff_allowed_witness :
  header "Access-Control-Allow-Origin"
         (Hardened.handleCORS (mkEnv None (Some "https://a.example , https://b.example"))
            (mkRequest "POST" [("origin", "https://b.example")] None VNull))
  = Some "https://b.example".
Proof.
  apply (proj2 (proj1 (CORS_origin_echoed_iff_allowed
           (mkEnv None (Some "https://a.example , https://b.example"))
           (mkRequest "POST" [("origin", "https://b.example")] None VNull)
           "https://b.example"))).
  split; [reflexivity|]. vm_compute. right. left. reflexivity.
Defined.

(** ** Bodies that are no objects *)

Lemma Hardened_invalid_body_400_witness :
  status (reply (fst (Hardened.handler sample_env sample_world []
                        (mkRequest "POST" [] None VNull)))) = 400.
Proof.
  exact (proj1 (Hardened_invalid_body_400 sample_env sample_world []
                  (mkRequest "POST" [] None VNull)
                  eq_refl eq_refl eq_refl eq_refl)).
Defined.

(** The open revisions have no check of the body.  With the key set, a
    POST whose body is [null] or missing ends in the catch-all with 500 and
    the text of the TypeError; a body that is a boolean, a number, a string
    or an array has no [_nkw] and no [category_id] and is answered with the
    400 of the missing search term.  Nothing is sent upstream. *)
Theorem Open_body_not_an_object
  (env : environment) (w : world) (req : request) :
  configured env = true -> method req = "POST" ->
  (forall fields, body req <> VObj fields) ->
  let expected :=
    match body req with
    | VUndefined | VNull =>
        mkOutcome
          (mkResponse 500 Open.cors_headers
             (failure ("Cannot read properties of " ++ display (body req)
                         ++ " (reading '_nkw')"))) []
    | _ =>
        mkOutcome
          (mkResponse 400 Open.cors_headers
             (Some (error_body "Search query (_nkw) or category_id is required")))
          []
    end in
  Comprehensive.handler env w req = expected
  /\ Basic.handler env w req = expected.
Proof.
  intros Hc Hm Hb expected. subst expected.
  assert (H : forall cleanProduct,
    Open.handler cleanProduct env w req
    = match body req with
      | VUndefined | VNull =>
          mkOutcome
            (mkResponse 500 Open.cors_headers
               (failure ("Cannot read properties of " ++ display (body req)
                           ++ " (reading '_nkw')"))) []
      | _ =>
          mkOutcome
            (mkResponse 400 Open.cors_headers
               (Some (error_body "Search query (_nkw) or category_id is required")))
            []
      end).
  { intros cleanProduct. unfold Open.handler, Open.prepare.
    rewrite Hm. simpl. unfold configured in Hc.
    destruct (SERPAPI_KEY env) as [key|]; [|discriminate]. rewrite Hc. simpl.
    destruct (body req) as [| |b|x|s|items|fields]; simpl; try reflexivity.
    - rewrite !lookup_indexed_named by reflexivity. reflexivity.
    - rewrite !lookup_indexed_named by reflexivity. reflexivity.
    - exfalso. now apply (Hb fields). }
  split; apply H.
Qed.

Lemma Open_body_not_an_object_witness :
  status (reply (Basic.handler sample_env sample_world
                   (mkRequest "POST" [] None (VArr [VStr "_nkw"])))) = 400.
Proof.
  assert (Hb : forall fields,
             body (mkRequest "POST" [] None (VArr [VStr "_nkw"])) <> VObj fields)
    by discriminate.
  rewrite (proj2 (Open_body_not_an_object sample_env sample_world
                    (mkRequest "POST" [] None (VArr [VStr "_nkw"]))
                    eq_refl eq_refl Hb)).
  reflexivity.
Defined.

(** ** When the comprehensive price clean-up throws *)

Lemma priced_throws (priceData v : value) (k : string) :
  GetV priceData k = Ok v ->
  is_number v || negb (truthy v) = false ->
  exists e, Comprehensive.priced priceData k = Throw e.
Proof.
  intros Hget Hv. apply orb_false_iff in Hv. destruct Hv as [Hn Ht].
  apply negb_false_iff in Ht.
  unfold Comprehensive.priced. rewrite Hget. simpl. rewrite Ht. simpl.
  destruct v; try discriminate; simpl; eauto.
Qed.

(** The comprehensive [cleanPriceField] throws on a price object exactly
    when one of the fields it formats ([extracted_value], [extracted],
    [value], [amount], [price]) is truthy and not a number, whatever [raw]
    and [formatted] hold. *)
Theorem Comprehensive_throws_exactly_when (priceData : value) :
  truthy priceData && is_object priceData = true ->
  ((exists e, Comprehensive.cleanPriceField priceData = Throw e)
   <-> amounts_numeric priceData = false).
Proof.
  intros Hobj. apply andb_true_iff in Hobj. destruct Hobj as [Ht Ho].
  assert (Hshape : (exists items, priceData = VArr items)
                   \/ (exists fields, priceData = VObj fields)).
  { destruct priceData; try discriminate; eauto. }
  split.
  - intros [e He]. destruct (amounts_numeric priceData) eqn:A; [|reflexivity].
    destruct (Comprehensive_cleanPriceField_total _ A) as [s Hs]. congruence.
  - intros A.
    assert (Hget : forall k, In k amount_keys ->
              GetV priceData k = Ok (property (own_properties priceData) k)).
    { intros k Hk. destruct Hshape as [[items ->]|[fields ->]];
        simpl in Hk; decompose [or] Hk; subst; try contradiction; reflexivity. }
    assert (Hstep : forall k, In k amount_keys ->
              (exists a, Comprehensive.priced priceData k = Ok a
                         /\ (let v := property (own_properties priceData) k in
                             is_number v || negb (truthy v)) = true)
              \/ (exists e, Comprehensive.priced priceData k = Throw e)).
    { intros k Hk. cbv zeta.
      destruct (is_number (property (own_properties priceData) k)
                || negb (truthy (property (own_properties priceData) k))) eqn:E.
      - left. destruct (priced_numeric priceData k) as [a Ha]; eauto.
        intros r <-. now apply Hget.
      - right. eapply priced_throws; [now apply Hget | exact E]. }
    unfold Comprehensive.cleanPriceField.
    replace (is_string priceData) with false
      by (destruct Hshape as [[items ->]|[fields ->]]; reflexivity).
    rewrite Ht, Ho. cbn [negb orb].
    assert (G1 : exists a, GetV priceData "raw" = Ok a)
      by (destruct Hshape as [[items ->]|[fields ->]]; simpl; eauto).
    assert (G2 : exists a, GetV priceData "formatted" = Ok a)
      by (destruct Hshape as [[items ->]|[fields ->]]; simpl; eauto).
    destruct G1 as [a1 ->], G2 as [a2 ->]. cbn [bind].
    unfold amounts_numeric, amount_keys in A. cbn [forallb] in A.
    destruct (Hstep "extracted_value") as [(a3 & -> & E3)|[e ->]];
      [simpl; tauto | | cbn [bind]; eauto].
    destruct (Hstep "extracted") as [(a4 & -> & E4)|[e ->]];
      [simpl; tauto | | cbn [bind]; eauto].
    destruct (Hstep "value") as [(a5 & -> & E5)|[e ->]];
      [simpl; tauto | | cbn [bind]; eauto].
    destruct (Hstep "amount") as [(a6 & -> & E6)|[e ->]];
      [simpl; tauto | | cbn [bind]; eauto].
    destruct (Hstep "price") as [(a7 & -> & E7)|[e ->]];
      [simpl; tauto | | cbn [bind]; eauto].
    cbv zeta in E3, E4, E5, E6, E7.
    rewrite E3, E4, E5, E6, E7 in A. discriminate.
Qed.

Lemma Comprehensive_throws_exactly_when_witness :
  exists e,
    Comprehensive.cleanPriceField
      (VObj [("raw", VStr "$5.00"); ("amount", VBool true)]) = Throw e.
Proof.
  exact (proj2 (Comprehensive_throws_exactly_when
                  (VObj [("raw", VStr "$5.00"); ("amount", VBool true)]) eq_refl)
               eq_refl).
Defined.

(** The hardened [cleanPriceField] never throws and never returns an empty
    string, whatever value it is given. *)
Theorem Hardened_cleanPriceField_never_throws (priceData : value) :
  exists s, Hardened.cleanPriceField priceData = Ok (VStr s)
            /\ nonempty s = true.
Proof. exact (Hardened_cleanPriceField_nonempty priceData). Qed.

(** ** The values the hardened revision sends upstream *)

Lemma mapM_In {A B : Type} (f : A -> res B) (l : list A) (l' : list B) (y : B) :
  mapM f l = Ok l' -> In y l' -> exists x, In x l /\ f x = Ok y.
Proof.
  revert l'. induction l as [|x r IH]; simpl; intros l' H Hin.
  - injection H as <-. destruct Hin.
  - bind_inversion H. subst l'. destruct Hin as [<-|Hin]; [eauto|].
    destruct (IH _ eq_refl Hin) as (x' & Hx' & Hf). eauto.
Qed.

Lemma Hardened_forwarded_clean (searchParams : value) (q : query) (k v : string) :
  Hardened.forwarded searchParams = Ok q -> In (k, v) q ->
  nonempty v = true /\ all_chars Hardened.allowed_char v = true.
Proof.
  unfold Hardened.forwarded. intros H Hin.
  bind_inversion H. subst q. apply in_concat in Hin.
  destruct Hin as (chunk & Hchunk & Hin).
  destruct (mapM_In _ _ _ _ E Hchunk) as (key & _ & Hkey).
  destruct (forwardable _); [|injection Hkey as <-; destruct Hin].
  destruct (ToString _) as [text|e]; simpl in Hkey; [|discriminate].
  destruct (nonempty (filter_chars _ text)) eqn:N;
    injection Hkey as <-; [|destruct Hin].
  destruct Hin as [[= <- <-]|[]].
  split; [exact N | apply all_chars_filter_chars].
Qed.

(** Whatever the request, every value the hardened revision forwards from
    the body in an upstream call is non-empty and made of letters, digits,
    underscores, white space and the characters [. , ( ) -] only; and a
    value made of such characters is forwarded unchanged by the stripping. *)
Theorem Hardened_upstream_values_clean
  (env : environment) (w : world) (m : Hardened.rateLimitMap) (req : request)
  (q : query) (k v : string) :
  In q (calls (fst (Hardened.handler env w m req))) ->
  In (k, v) (skipn 3 q) ->
  nonempty v = true
  /\ all_chars Hardened.allowed_char v = true
  /\ strip v = v.
Proof.
  unfold Hardened.handler.
  destruct (String.eqb (method req) "OPTIONS"); [intros []|].
  destruct (String.eqb (method req) "POST"); simpl; [|intros []].
  destruct (Hardened.checkRateLimit _ _ m) as [[|] m']; simpl; [|intros []].
  destruct (Hardened_prepare_cases env req)
    as [[_ ->]|[_ [->|[->|[(e & _ & ->)|(key & q0 & _ & Hf & ->)]]]]]; simpl;
    try (intros []).
  - destruct (String.eqb (name e) "AbortError"); intros [].
  - assert (Hq : In q [(fixed_parameters key ++ q0)%list]
                 -> In (k, v) (skipn 3 q) ->
                 nonempty v = true
                 /\ all_chars Hardened.allowed_char v = true /\ strip v = v).
    { intros [<-|[]] Hin. simpl in Hin.
      destruct (Hardened_forwarded_clean _ _ _ _ Hf Hin) as [Hn Ha].
      repeat split; auto. now apply filter_chars_clean. }
    destruct (Hardened.conclude _) as [[code json]|e]; simpl;
      try destruct (String.eqb (name e) "AbortError"); exact Hq.
Qed.

Lemma Hardened_upstream_values_clean_witness :
  strip "jersey (new)" = "jersey (new)".
Proof.
  refine (proj2 (proj2 (Hardened_upstream_values_clean sample_env sample_world []
     (mkRequest "POST" [] None (VObj [("_nkw", VStr "jersey <(new)>")]))
     [("engine", "ebay"); ("api_key", "KEY"); ("ebay_domain", "ebay.com");
      ("_nkw", "jersey (new)")]
     "_nkw" "jersey (new)" _ _))).
  - vm_compute. left. reflexivity.
  - vm_compute. left. reflexivity.
Defined.
